(** * dblite: storing Python dictionaries in sqlite

    A shallow embedding of [dblite/__init__.py] (class [Storage]) and of the
    criteria translator it calls, with the properties of the specification
    stated over it.

    Python values are modelled by inductive types, dictionaries by stdpp's
    [gmap], the mutable [Storage] object by explicit state passing in a small
    state-and-exception monad, and the sqlite3 driver by an interface. *)

From Stdlib Require Import ZArith String List Ascii Bool Lia.
From stdpp Require Import base option list strings gmap fin_maps.

Local Open Scope Z_scope.

(** ** Python values *)

(** The literals that travel through the library as column values, bound
    parameters and operands.  A float is kept as an opaque mantissa/exponent
    pair: the library never computes with it. *)
Inductive scalar : Type :=
| SNone
| SBool (b : bool)
| SInt (z : Z)
| SFloat (m e : Z)
| SStr (s : string).

#[global] Instance scalar_eq_dec : EqDecision scalar.
Proof. solve_decision. Defined.

(** Exceptions.  The formatted messages of [RuntimeError] are kept as data
    instead of being rendered with [%]. *)
Inductive sqlite3_error : Type :=
| OperationalError (msg : string)
| DatabaseError (msg : string).

Inductive runtime_msg : Type :=
| CriteriaNotDefined
| ItemPutError (err : string) (SQL : string) (values : list scalar)
| UnknownItemType
| ItemsMismatch.

Inductive exn : Type :=
| RuntimeError (m : runtime_msg)
| KeyError (k : string)
| IndexError
| Sqlite3Error (e : sqlite3_error)
| InvalidCriteria
| UnsupportedOperator.

Inductive result (A : Type) : Type :=
| Ok (a : A)
| Raise (e : exn).
Arguments Ok {A} a.
Arguments Raise {A} e.

(** [sep.join(parts)] *)
Definition join (sep : string) (parts : list string) : string :=
  String.concat sep parts.

(** Truth value of a [str]: the empty string is false. *)
Definition str_truthy (s : string) : bool :=
  match s with
  | EmptyString => false
  | String _ _ => true
  end.

(** ** [Storage._dict_factory] *)

(** A record is a Python dictionary from field names to values. *)
Abbreviation Item := (gmap string scalar).

(** [cursor.description] is a sequence of 7-tuples of which only the first
    component, the column name, is read: it is modelled by the list of the
    column names. *)
Definition dict_key (col : string) : string :=
  if decide (col = "rowid") then "_id" else col.

(** The loop body of [_dict_factory]: [row[idx]] raises [IndexError] when
    the row is shorter than the description. *)
Definition dict_factory_step (row : list scalar) (acc : result Item)
    (ic : nat * string) : result Item :=
  match acc with
  | Raise e => Raise e
  | Ok d =>
      match row !! ic.1 with
      | Some v => Ok (<[dict_key ic.2 := v]> d)
      | None => Raise IndexError
      end
  end.

Definition _dict_factory (description : list string) (row : list scalar)
    : result Item :=
  fold_left (dict_factory_step row) (imap pair description) (Ok ∅).

(** ** Arguments of the public methods *)

(** What a caller passes as [criteria]: [None], a mapping from field names
    to either a plain value or an operator descriptor (itself a mapping from
    operator keys to operands), or a record (an instance of the item
    class).  Mappings are kept as association lists in insertion order. *)
Inductive value : Type :=
| Scalar (v : scalar)
| Sequence (vs : list scalar).

Inductive entry : Type :=
| Bare (v : value)
| Descriptor (d : list (string * value)).

Inductive filter_input : Type :=
| FNone
| FMapping (m : list (string * entry))
| FRecord (r : Item).

(** The [autocommit] argument of the constructor: a [bool], an [int], or
    an object of another type. *)
Inductive pyarg : Type :=
| ABool (b : bool)
| AInt (n : Z)
| AOther.

(** [isinstance(a, bool)], [isinstance(a, int)] ([bool] is a subclass of
    [int]), and the integer value used by [>] and [%]. *)
Definition is_bool (a : pyarg) : bool :=
  match a with ABool _ => true | _ => false end.

Definition is_int (a : pyarg) : bool :=
  match a with ABool _ | AInt _ => true | AOther => false end.

Definition int_value (a : pyarg) : Z :=
  match a with
  | ABool b => if b then 1 else 0
  | AInt n => n
  | AOther => 0
  end.

Definition truthy (a : pyarg) : bool :=
  match a with
  | ABool b => b
  | AInt n => negb (n =? 0)
  | AOther => true
  end.

(** What a caller passes to [put]. *)
Inductive pyobj : Type :=
| ObjItem (i : Item)
| ObjOther.

Inductive put_arg : Type :=
| PItem (i : Item)
| PSeq (items : list pyobj)
| POther.

(** ** The collaborators of [Storage] *)

(** The sqlite3 connection and its cursor.  [execute] either fails with a
    driver error or yields the new database together with the description
    and the raw rows of the result set; [commit] either fails with a driver
    error or yields the new database. *)
Inductive exec_result (conn : Type) : Type :=
| ExecOk (c : conn) (description : list string) (rows : list (list scalar))
| ExecError (e : sqlite3_error).
Arguments ExecOk {conn} c description rows.
Arguments ExecError {conn} e.

Class Sqlite3 (conn : Type) : Type := {
  sqlite_execute : conn -> string -> list scalar -> exec_result conn;
  sqlite_commit : conn -> sqlite3_error + conn
}.

(** [dblite.sql.WhereBuilder], imported by the module: [WhereBuilder_new] is
    the constructor call [WhereBuilder()], [parse] the method applied to the
    fresh instance.  Its result is used by [get] and [delete] as a [str]. *)
Class WhereBuilderClass (builder : Type) : Type := {
  WhereBuilder_new : builder;
  parse : builder -> filter_input -> result string
}.

(** ** The [Storage] object *)

(** One call made on the driver. *)
Inductive call : Type :=
| Execute (SQL : string) (params : list scalar)
| Commit.

(** The attributes of a [Storage] instance.  [_cursor] holds the result set
    left by the last [execute]; [calls] is a ghost field recording the
    driver calls made so far, oldest first. *)
Record Storage (conn : Type) : Type := mkStorage {
  _table : string;
  _autocommit : pyarg;
  _commit_counter : Z;
  _conn : conn;
  _cursor : list string * list (list scalar);
  calls : list call
}.
Arguments mkStorage {conn}.
Arguments _table {conn}.
Arguments _autocommit {conn}.
Arguments _commit_counter {conn}.
Arguments _conn {conn}.
Arguments _cursor {conn}.
Arguments calls {conn}.

(** Methods run in a state-and-exception monad over the instance: an
    exception keeps the mutations made before it was raised. *)
Definition M (conn A : Type) : Type := Storage conn -> result A * Storage conn.

Definition ret {conn A} (a : A) : M conn A := fun self => (Ok a, self).

Definition raise {conn A} (e : exn) : M conn A := fun self => (Raise e, self).

Definition bind {conn A B} (m : M conn A) (k : A -> M conn B) : M conn B :=
  fun self =>
    match m self with
    | (Ok a, self') => k a self'
    | (Raise e, self') => (Raise e, self')
    end.

Notation "'let!' x ':=' m 'in' k" := (bind m (fun x => k))
  (at level 10, x name, m at level 100, k at level 200).
Notation "m ';;' k" := (bind m (fun _ => k))
  (at level 100, k at level 200, right associativity).

Definition lift {conn A} (r : result A) : M conn A := fun self => (r, self).

Definition set_commit_counter {conn} (n : Z) (self : Storage conn) : Storage conn :=
  mkStorage (_table self) (_autocommit self) n (_conn self) (_cursor self) (calls self).

Section StorageMethods.
Context {conn : Type} `{Sqlite3 conn}.
Context {builder : Type} `{WhereBuilderClass builder}.

(** [self._cursor.execute(SQL, params)]: the call is recorded, and on
    success the connection and the pending result set are replaced. *)
Definition cursor_execute (SQL : string) (params : list scalar) : M conn unit :=
  fun self =>
    let log := calls self ++ [Execute SQL params] in
    match sqlite_execute (_conn self) SQL params with
    | ExecOk c description rows =>
        (Ok tt,
         mkStorage (_table self) (_autocommit self) (_commit_counter self)
           c (description, rows) log)
    | ExecError e =>
        (Raise (Sqlite3Error e),
         mkStorage (_table self) (_autocommit self) (_commit_counter self)
           (_conn self) (_cursor self) log)
    end.

(** The rows of the pending result set through the row factory, which
    [__init__] sets to [_dict_factory]. *)
Fixpoint row_factory_all (description : list string) (rows : list (list scalar))
    : result (list Item) :=
  match rows with
  | [] => Ok []
  | row :: rest =>
      match _dict_factory description row with
      | Raise e => Raise e
      | Ok d =>
          match row_factory_all description rest with
          | Raise e => Raise e
          | Ok ds => Ok (d :: ds)
          end
      end
  end.

(** [self._cursor.fetchall()] *)
Definition cursor_fetchall : M conn (list Item) :=
  fun self =>
    let '(description, rows) := _cursor self in
    (row_factory_all description rows,
     mkStorage (_table self) (_autocommit self) (_commit_counter self)
       (_conn self) (description, []) (calls self)).

(** [self._item_class(r)]: the item class wraps the dictionary. *)
Definition _item_class (r : Item) : Item := r.

(** [Storage.commit]: the call is recorded, and an error of
    [self._conn.commit()] leaves the method as it is. *)
Definition commit : M conn unit :=
  fun self =>
    let log := calls self ++ [Commit] in
    match sqlite_commit (_conn self) with
    | inr c =>
        (Ok tt,
         mkStorage (_table self) (_autocommit self) (_commit_counter self)
           c (_cursor self) log)
    | inl e =>
        (Raise (Sqlite3Error e),
         mkStorage (_table self) (_autocommit self) (_commit_counter self)
           (_conn self) (_cursor self) log)
    end.

(** [Storage.get], with the generator it returns run to exhaustion. *)
Definition get (criteria : filter_input) : M conn (list Item) :=
  fun self =>
    (let SQL := "SELECT rowid,* FROM " +:+ _table self in
     let! WHERE := lift (parse WhereBuilder_new criteria) in
     let SQL :=
       if str_truthy WHERE
       then join " " [SQL; "WHERE"; WHERE; ";"]
       else join "" [SQL; ";"] in
     cursor_execute SQL [] ;;
     let! rs := cursor_fetchall in
     ret (map _item_class rs)) self.

(** [Storage._do_autocommit] *)
Definition _do_autocommit : M conn unit :=
  fun self =>
    let self := set_commit_counter (_commit_counter self + 1) self in
    if is_bool (_autocommit self) && truthy (_autocommit self) then
      (commit ;; fun s => (Ok tt, set_commit_counter 0 s)) self
    else if is_int (_autocommit self) && (0 <? int_value (_autocommit self)) then
      if (_commit_counter self) mod (int_value (_autocommit self)) =? 0 then
        (commit ;; fun s => (Ok tt, set_commit_counter 0 s)) self
      else (Ok tt, self)
    else (Ok tt, self).

(** The keys of an item other than ['_id'], in iteration order. *)
Definition other_fields (item : Item) : list (string * scalar) :=
  filter (fun kv => kv.1 <> "_id") (map_to_list item).

(** [Storage._put_one]: only [sqlite3.OperationalError] is turned into a
    [RuntimeError]. *)
Definition _put_one (item : Item) : M conn unit :=
  fun self =>
    let values := map snd (other_fields item) in
    let '(SQL, values) :=
      match item !! "_id" with
      | Some id =>
          let fieldnames :=
            join "," (map (fun kv => kv.1 +:+ "=?") (other_fields item)) in
          ("UPDATE " +:+ _table self +:+ " SET " +:+ fieldnames +:+ " WHERE rowid=?;",
           values ++ [id])
      | None =>
          let fieldnames := join "," (map fst (other_fields item)) in
          let fieldnames_template :=
            join "," (map (fun _ => "?") (other_fields item)) in
          ("INSERT INTO " +:+ _table self +:+ " (" +:+ fieldnames +:+ ") VALUES ("
             +:+ fieldnames_template +:+ ");",
           values)
      end in
    match cursor_execute SQL values self with
    | (Raise (Sqlite3Error (OperationalError err)), self') =>
        (Raise (RuntimeError (ItemPutError err SQL values)), self')
    | (Raise e, self') => (Raise e, self')
    | (Ok _, self') => _do_autocommit self'
    end.

(** [Storage._put_many]: every element is checked, then handed to [put],
    which sends an item to [_put_one]. *)
Fixpoint _put_many (items : list pyobj) : M conn unit :=
  match items with
  | [] => ret tt
  | ObjOther :: _ => raise (RuntimeError ItemsMismatch)
  | ObjItem item :: rest => _put_one item ;; _put_many rest
  end.

(** [Storage.put] *)
Definition put (item : put_arg) : M conn unit :=
  match item with
  | PItem i => _put_one i
  | PSeq items => _put_many items
  | POther => raise (RuntimeError UnknownItemType)
  end.

(** [Storage.delete] *)
Definition delete (criteria : filter_input) (_all : bool) : M conn unit :=
  fun self =>
    (let! criteria :=
       match criteria with
       | FRecord r =>
           match r !! "_id" with
           | Some id => ret (FMapping [("_id", Bare (Scalar id))])
           | None => raise (KeyError "_id")
           end
       | _ => ret criteria
       end in
     let SQL := "DELETE FROM " +:+ _table self in
     let! WHERE := lift (parse WhereBuilder_new criteria) in
     let! SQL :=
       if str_truthy WHERE then ret (join " " [SQL; "WHERE"; WHERE; ";"])
       else if negb _all then raise (RuntimeError CriteriaNotDefined)
       else ret SQL in
     let SQL := if _all then join "" [SQL; ";"] else SQL in
     cursor_execute SQL []) self.

(** The attributes set by [__init__] once the URI is parsed and the
    connection [c] is open. *)
Definition new_storage (table : string) (c : conn) (autocommit : pyarg)
    : Storage conn :=
  mkStorage table autocommit 0 c ([], []) [].

End StorageMethods.

(** ** The criteria model and its translator

    [dblite/sql.py], the module of [WhereBuilder], is not among the sources.
    The definitions of this part follow the specification (sections 3, 4
    and 8). *)

(** Modelled from the spec: the closed operator set of section 4.2
    ([dblite/sql.py] is missing), one variant per row of the table. *)
Inductive Operator : Type :=
| Equals
| NotEquals
| GreaterThan
| GreaterOrEqual
| LessThan
| LessOrEqual
| InSet
| NotInSet
| IsNull.

(** Modelled from the spec: a Criterion, one condition on one field
    ([dblite/sql.py] is missing).  For [IsNull] the operand is the boolean
    flag that selects between [IS NULL] and [IS NOT NULL]. *)
Record Criterion : Type := mkCriterion {
  field : string;
  operator : Operator;
  operand : value
}.

(** Modelled from the spec: a Criteria is the ordered sequence of its
    Criterion ([dblite/sql.py] is missing). *)
Abbreviation Criteria := (list Criterion).

(** Modelled from the spec: a Translation Result, the fragment and its
    bound parameters ([dblite/sql.py] is missing). *)
Record TranslationResult : Type := mkTranslation {
  fragment : string;
  parameters : list scalar
}.

(** Modelled from the spec: the operator keys of section 4.2
    ([dblite/sql.py] is missing).  The spec names the last row "is-null
    variant": the key is taken to be [is-null], with the flag as operand. *)
Definition operator_of_key (k : string) : option Operator :=
  if decide (k = "equals") then Some Equals
  else if decide (k = "not-equals") then Some NotEquals
  else if decide (k = "greater-than") then Some GreaterThan
  else if decide (k = "greater-or-equal") then Some GreaterOrEqual
  else if decide (k = "less-than") then Some LessThan
  else if decide (k = "less-or-equal") then Some LessOrEqual
  else if decide (k = "in-set") then Some InSet
  else if decide (k = "not-in-set") then Some NotInSet
  else if decide (k = "is-null") then Some IsNull
  else None.

(** Modelled from the spec: the characters safe in a SQL identifier
    ([dblite/sql.py] is missing).  The spec asks for "no SQL
    metacharacters"; letters, digits and the underscore are taken. *)
Definition ident_char (a : ascii) : bool :=
  let n := N_of_ascii a in
  (((65 <=? n) && (n <=? 90)) || ((97 <=? n) && (n <=? 122))
   || ((48 <=? n) && (n <=? 57)) || (n =? 95))%N.

(** Modelled from the spec: a field name is a non-empty identifier-safe
    string ([dblite/sql.py] is missing). *)
Definition identifier_safe (f : string) : bool :=
  str_truthy f && forallb ident_char (list_ascii_of_string f).

(** Modelled from the spec: the operand shape each operator requires, third
    column of the table of section 4.2 ([dblite/sql.py] is missing). *)
Definition shape_ok (o : Operator) (v : value) : bool :=
  match o, v with
  | (InSet | NotInSet), Sequence (_ :: _) => true
  | (InSet | NotInSet), _ => false
  | IsNull, Scalar (SBool _) => true
  | IsNull, _ => false
  | _, Scalar _ => true
  | _, Sequence _ => false
  end.

(** Modelled from the spec: the validation contract of section 4.1 for one
    Criterion ([dblite/sql.py] is missing). *)
Definition valid_criterion (c : Criterion) : bool :=
  identifier_safe (field c) && shape_ok (operator c) (operand c).

(** Modelled from the spec: one entry of the input mapping becomes one
    Criterion; a bare value means equality, a descriptor must have exactly
    one recognized operator key ([dblite/sql.py] is missing). *)
Definition build_criterion (f : string) (e : entry) : result Criterion :=
  let candidate :=
    match e with
    | Bare v => Some (mkCriterion f Equals v)
    | Descriptor [(k, v)] =>
        match operator_of_key k with
        | Some o => Some (mkCriterion f o v)
        | None => None
        end
    | Descriptor _ => None
    end in
  match candidate with
  | Some c => if valid_criterion c then Ok c else Raise InvalidCriteria
  | None => Raise InvalidCriteria
  end.

(** Modelled from the spec: the entries are taken in insertion order
    ([dblite/sql.py] is missing). *)
Fixpoint build_entries (m : list (string * entry)) : result Criteria :=
  match m with
  | [] => Ok []
  | (f, e) :: rest =>
      match build_criterion f e with
      | Raise err => Raise err
      | Ok c =>
          match build_entries rest with
          | Raise err => Raise err
          | Ok cs => Ok (c :: cs)
          end
      end
  end.

(** Modelled from the spec: [buildCriteria], section 4.1 and 6
    ([dblite/sql.py] is missing).  A record is normalized to one equality
    on its identity field; the spec does not say what a record without an
    identity gives, [InvalidCriteria] is taken. *)
Definition buildCriteria (input : filter_input) : result Criteria :=
  match input with
  | FNone => Ok []
  | FMapping m => build_entries m
  | FRecord r =>
      match r !! "_id" with
      | Some id => Ok [mkCriterion "_id" Equals (Scalar id)]
      | None => Raise InvalidCriteria
      end
  end.

(** Modelled from the spec: the [?, ?, ...] list of a membership operator
    ([dblite/sql.py] is missing). *)
Definition placeholders (n : nat) : string :=
  join ", " (repeat "?" n).

(** Modelled from the spec: the SQL form of one Criterion, second column of
    the table of section 4.2 ([dblite/sql.py] is missing). *)
Definition criterion_sql (c : Criterion) : string :=
  let arity :=
    match operand c with
    | Scalar _ => 1%nat
    | Sequence vs => length vs
    end in
  match operator c with
  | Equals => field c +:+ " = ?"
  | NotEquals => field c +:+ " <> ?"
  | GreaterThan => field c +:+ " > ?"
  | GreaterOrEqual => field c +:+ " >= ?"
  | LessThan => field c +:+ " < ?"
  | LessOrEqual => field c +:+ " <= ?"
  | InSet => field c +:+ " IN (" +:+ placeholders arity +:+ ")"
  | NotInSet => field c +:+ " NOT IN (" +:+ placeholders arity +:+ ")"
  | IsNull =>
      match operand c with
      | Scalar (SBool false) => field c +:+ " IS NOT NULL"
      | _ => field c +:+ " IS NULL"
      end
  end.

(** Modelled from the spec: the zero, one or N parameters of one Criterion
    ([dblite/sql.py] is missing). *)
Definition criterion_parameters (c : Criterion) : list scalar :=
  match operator c, operand c with
  | IsNull, _ => []
  | _, Scalar v => [v]
  | _, Sequence vs => vs
  end.

(** Modelled from the spec: one iteration of the algorithm of section 4.2,
    which emits the SQL form and appends the parameters
    ([dblite/sql.py] is missing). *)
Definition translate_step (acc : list string * list scalar) (c : Criterion)
    : list string * list scalar :=
  (acc.1 ++ [criterion_sql c], acc.2 ++ criterion_parameters c).

(** Modelled from the spec: [translate], sections 4.2 and 6
    ([dblite/sql.py] is missing): it fails with [InvalidCriteria] on a
    Criteria that does not pass validation, and otherwise joins the
    per-Criterion fragments with [" AND "]. *)
Definition translate (criteria : Criteria) : result TranslationResult :=
  if forallb valid_criterion criteria then
    let acc := fold_left translate_step criteria ([], []) in
    Ok (mkTranslation (join " AND " acc.1) acc.2)
  else Raise InvalidCriteria.

(** Modelled from the spec: the control flow of section 2, the collaborator
    builds a Criteria from the caller's input and invokes the translator
    ([dblite/sql.py] is missing). *)
Definition translate_input (input : filter_input) : result TranslationResult :=
  match buildCriteria input with
  | Ok c => translate c
  | Raise e => Raise e
  end.

(** Modelled from the spec: a [WhereBuilder] whose [parse] hands the
    fragment of the translation to [Storage] ([dblite/sql.py] is
    missing). *)
Definition spec_parse (_ : unit) (input : filter_input) : result string :=
  match translate_input input with
  | Ok r => Ok (fragment r)
  | Raise e => Raise e
  end.

Definition SpecWhereBuilder : WhereBuilderClass unit :=
  {| WhereBuilder_new := tt; parse := spec_parse |}.

(** Number of [?] placeholders of a fragment. *)
Fixpoint count_placeholders (s : string) : nat :=
  match s with
  | EmptyString => 0%nat
  | String a rest =>
      ((if decide (a = "?"%char) then 1 else 0) + count_placeholders rest)%nat
  end.

(** ** Statements handed to the driver *)

(** The text [get] hands to the driver, as a function of the table and of
    the string returned by [parse]. *)
Definition select_statement (table WHERE : string) : string :=
  if str_truthy WHERE
  then "SELECT rowid,* FROM " +:+ table +:+ " WHERE " +:+ WHERE +:+ " ;"
  else "SELECT rowid,* FROM " +:+ table +:+ ";".

(** The text [delete] hands to the driver, if it gets that far. *)
Definition delete_statement (table WHERE : string) (_all : bool) : option string :=
  if str_truthy WHERE then
    Some ("DELETE FROM " +:+ table +:+ " WHERE " +:+ WHERE +:+ " ;"
            +:+ (if _all then ";" else ""))
  else if _all then Some ("DELETE FROM " +:+ table +:+ ";")
  else None.

(** [delete] first replaces a record by a mapping on its identity. *)
Definition delete_criteria (criteria : filter_input) : result filter_input :=
  match criteria with
  | FRecord r =>
      match r !! "_id" with
      | Some id => Ok (FMapping [("_id", Bare (Scalar id))])
      | None => Raise (KeyError "_id")
      end
  | _ => Ok criteria
  end.

(** ** Automatic commits, in closed form *)

(** Whether the [j]-th [put] (counted from 1) of a run that starts with the
    commit counter at [c0] is followed by an automatic commit: always for
    [True], never for [False], on every [N]-th for a positive integer. *)
Definition commit_due (autocommit : pyarg) (c0 : Z) (j : nat) : bool :=
  match autocommit with
  | ABool b => b
  | AInt N => (0 <? N) && ((c0 + Z.of_nat j) mod N =? 0)
  | AOther => false
  end.

(** The driver calls of a run of successful [put]s, the [j]-th statement
    being followed by a commit when [due j]. *)
Fixpoint batched_trace (due : nat -> bool) (j : nat)
    (stmts : list (string * list scalar)) : list call :=
  match stmts with
  | [] => []
  | (SQL, values) :: rest =>
      Execute SQL values
        :: (if due j then [Commit] else []) ++ batched_trace due (S j) rest
  end.

(** The commit counter after one [put]. *)
Definition next_counter (autocommit : pyarg) (c : Z) : Z :=
  if commit_due autocommit c 1 then 0 else c + 1.

(** ** The operator table as a relation, and malformed entries *)

(** The table of section 4.2 read as a relation: the fragment and the
    parameters that one entry of the input mapping stands for. *)
Inductive entry_sql (f : string) : entry -> string -> list scalar -> Prop :=
| sql_bare v :
    entry_sql f (Bare (Scalar v)) (f +:+ " = ?") [v]
| sql_equals v :
    entry_sql f (Descriptor [("equals", Scalar v)]) (f +:+ " = ?") [v]
| sql_not_equals v :
    entry_sql f (Descriptor [("not-equals", Scalar v)]) (f +:+ " <> ?") [v]
| sql_greater_than v :
    entry_sql f (Descriptor [("greater-than", Scalar v)]) (f +:+ " > ?") [v]
| sql_greater_or_equal v :
    entry_sql f (Descriptor [("greater-or-equal", Scalar v)]) (f +:+ " >= ?") [v]
| sql_less_than v :
    entry_sql f (Descriptor [("less-than", Scalar v)]) (f +:+ " < ?") [v]
| sql_less_or_equal v :
    entry_sql f (Descriptor [("less-or-equal", Scalar v)]) (f +:+ " <= ?") [v]
| sql_in_set v vs :
    entry_sql f (Descriptor [("in-set", Sequence (v :: vs))])
      (f +:+ " IN (" +:+ join ", " (map (fun _ => "?") (v :: vs)) +:+ ")") (v :: vs)
| sql_not_in_set v vs :
    entry_sql f (Descriptor [("not-in-set", Sequence (v :: vs))])
      (f +:+ " NOT IN (" +:+ join ", " (map (fun _ => "?") (v :: vs)) +:+ ")") (v :: vs)
| sql_is_null :
    entry_sql f (Descriptor [("is-null", Scalar (SBool true))]) (f +:+ " IS NULL") []
| sql_is_not_null :
    entry_sql f (Descriptor [("is-null", Scalar (SBool false))])
      (f +:+ " IS NOT NULL") [].

Definition key_of_operator (o : Operator) : string :=
  match o with
  | Equals => "equals"
  | NotEquals => "not-equals"
  | GreaterThan => "greater-than"
  | GreaterOrEqual => "greater-or-equal"
  | LessThan => "less-than"
  | LessOrEqual => "less-or-equal"
  | InSet => "in-set"
  | NotInSet => "not-in-set"
  | IsNull => "is-null"
  end.

(** The ways section 4.1 lists for an entry to be malformed. *)
Inductive malformed (f : string) : entry -> Prop :=
| bad_empty_field e :
    f = "" -> malformed f e
| bad_unsafe_field e a :
    In a (list_ascii_of_string f) -> ident_char a = false -> malformed f e
| bad_operator_key k v :
    operator_of_key k = None -> malformed f (Descriptor [(k, v)])
| bad_operator_count d :
    length d <> 1%nat -> malformed f (Descriptor d)
| bad_bare_sequence vs :
    malformed f (Bare (Sequence vs))
| bad_scalar_operand k o vs :
    operator_of_key k = Some o -> o <> InSet -> o <> NotInSet ->
    malformed f (Descriptor [(k, Sequence vs)])
| bad_membership_operand k o v :
    operator_of_key k = Some o -> o = InSet \/ o = NotInSet ->
    malformed f (Descriptor [(k, Scalar v)])
| bad_empty_membership k o :
    operator_of_key k = Some o -> o = InSet \/ o = NotInSet ->
    malformed f (Descriptor [(k, Sequence [])])
| bad_null_flag k v :
    operator_of_key k = Some IsNull -> (forall b, v <> SBool b) ->
    malformed f (Descriptor [(k, Scalar v)]).

(** ** A driver double for the examples *)

(** A database holding the rows of one table [items (name, age)], each
    with its rowid in front.  The unrestricted [SELECT] returns every row,
    the unrestricted [DELETE] removes them, any other statement succeeds and
    leaves the rows alone. *)
Definition demo_execute (db : list (list scalar)) (SQL : string)
    (params : list scalar) : exec_result (list (list scalar)) :=
  if decide (SQL = "SELECT rowid,* FROM items;") then
    ExecOk db ["rowid"; "name"; "age"] db
  else if decide (SQL = "DELETE FROM items;") then ExecOk [] [] []
  else ExecOk db [] [].

Definition DemoSqlite3 : Sqlite3 (list (list scalar)) :=
  {| sqlite_execute := demo_execute; sqlite_commit := fun db => inr db |}.

Definition demo_rows : list (list scalar) :=
  [[SInt 1; SStr "alice"; SInt 30]; [SInt 2; SStr "bob"; SInt 17]].

Definition demo_storage (autocommit : pyarg) : Storage (list (list scalar)) :=
  new_storage "items" demo_rows autocommit.

Definition demo_get := @get _ DemoSqlite3 _ SpecWhereBuilder.
Definition demo_delete := @delete _ DemoSqlite3 _ SpecWhereBuilder.
Definition demo_put := @put _ DemoSqlite3.

(** ** The statement of [_put_one] *)

(** The text and the values that [_put_one] hands to the driver for an item
    on a table. *)
Definition put_statement (table : string) (item : Item) : string * list scalar :=
  match item !! "_id" with
  | Some id =>
      ("UPDATE " +:+ table +:+ " SET "
         +:+ join "," (map (fun kv => kv.1 +:+ "=?") (other_fields item))
         +:+ " WHERE rowid=?;",
       map snd (other_fields item) ++ [id])
  | None =>
      ("INSERT INTO " +:+ table +:+ " ("
         +:+ join "," (map fst (other_fields item)) +:+ ") VALUES ("
         +:+ join "," (map (fun _ => "?") (other_fields item)) +:+ ");",
       map snd (other_fields item))
  end.

(** ** Strings: [str.find] and [str.split] *)

(** [s.startswith(sub)] *)
Fixpoint starts_with (sub s : string) : bool :=
  match sub with
  | EmptyString => true
  | String a sub' =>
      match s with
      | EmptyString => false
      | String b s' => if decide (a = b) then starts_with sub' s' else false
      end
  end.

(** [s.find(sub)]: the lowest index at which [sub] occurs, [-1] if none. *)
Fixpoint find_from (sub s : string) (i : Z) : Z :=
  if starts_with sub s then i
  else
    match s with
    | EmptyString => -1
    | String _ rest => find_from sub rest (i + 1)
    end.

Definition find (s sub : string) : Z := find_from sub s 0.

(** [s.split(sep)] for a non-empty [sep]: the text is scanned from the left,
    [cur] is the piece being read and [skip] the number of characters of a
    separator just met that are still to be passed over. *)
Fixpoint split_go (sep : string) (skip : nat) (cur : string) (s : string)
    : list string :=
  match s with
  | EmptyString => [cur]
  | String a rest =>
      match skip with
      | S k => split_go sep k cur rest
      | O =>
          if starts_with sep s
          then cur :: split_go sep (String.length sep - 1) "" rest
          else split_go sep 0 (cur +:+ String a "") rest
      end
  end.

Definition split (s sep : string) : list string := split_go sep 0 "" s.

(** The character [c] does not occur in [s]. *)
Definition char_free (c : ascii) (s : string) : Prop :=
  ~ In c (list_ascii_of_string s).

(** ** Exceptions raised while a storage is opened *)

(** The messages of the [RuntimeError]s of [parse_uri], [__init__],
    [fieldnames] and [_create_table], kept as data. *)
Inductive setup_msg : Type :=
| IncorrectURI (uri : option string)
| UnknownBackend (backend : string)
| EmptyDatabaseName (database : string)
| EmptyTableName (table : string)
| ConnectError (err : string) (database : string)
| UnknownItemType_NoFields
| ItemClassNotDefined
| FieldnamesNotDefined
| CreateTableError (err : string) (SQL : string).

(** The exceptions of these methods: those of [exn], the [RuntimeError]s
    above, and the [ValueError] of a tuple unpacking of the wrong length and
    the [AttributeError] of [keys()] on an object without it. *)
Inductive pyexn : Type :=
| Builtin (e : exn)
| SetupError (m : setup_msg)
| ValueError
| AttributeError.

Inductive outcome (A : Type) : Type :=
| Done (a : A)
| Fail (e : pyexn).
Arguments Done {A} a.
Arguments Fail {A} e.

(** ** [Storage.parse_uri] *)

Definition SUPPORTED_BACKENDS : list string := ["sqlite"].

(** [uri] is [None] or a [str]. *)
Definition parse_uri (uri : option string) : outcome (string * string) :=
  match uri with
  | None => Fail (SetupError (IncorrectURI uri))
  | Some u =>
      if negb (str_truthy u) || (find u "://" <=? 0) then
        Fail (SetupError (IncorrectURI uri))
      else
        match split u "://" with
        | [backend; rest_uri] =>
            if negb (bool_decide (backend ∈ SUPPORTED_BACKENDS)) then
              Fail (SetupError (UnknownBackend backend))
            else
              match split rest_uri ":" with
              | [database; table] => Done (database, table)
              | _ => Fail ValueError
              end
        | _ => Fail ValueError
        end
  end.

(** ** [Storage.__init__], [fieldnames] and [_create_table] *)

(** The item class as [inspect.getmembers] shows it: its members by name,
    a member being a mapping, of which the keys are kept, or something
    else. *)
Inductive member : Type :=
| MMapping (keys : list string)
| MOther.

Abbreviation ItemClass := (list (string * member)).

(** [sqlite3.connect(database)] *)
Class Sqlite3Connect (conn : Type) : Type := {
  sqlite_connect : string -> sqlite3_error + conn
}.

(** A [Storage] instance with the attributes [_item_class], [_fieldnames]
    and [_db] that [__init__] sets besides those of [Storage]. *)
Record StorageObject (conn : Type) : Type := mkStorageObject {
  obj_storage : Storage conn;
  obj_item_class : option ItemClass;
  obj_fieldnames : option (list string);
  obj_db : string
}.
Arguments mkStorageObject {conn}.
Arguments obj_storage {conn}.
Arguments obj_item_class {conn}.
Arguments obj_fieldnames {conn}.
Arguments obj_db {conn}.

(** The property [Storage.fieldnames]: the cached set if it is not empty,
    otherwise the keys of the one member named [fields], which are cached.
    The set is kept as the list of its elements in iteration order. *)
Definition fieldnames {conn : Type} (self : StorageObject conn)
    : outcome (list string) * StorageObject conn :=
  match obj_fieldnames self with
  | Some (f :: fs) => (Done (f :: fs), self)
  | _ =>
      match obj_item_class self with
      | Some cls =>
          match map snd (filter (fun m => m.1 = "fields") cls) with
          | [MMapping keys] =>
              (Done keys,
               mkStorageObject (obj_storage self) (obj_item_class self)
                 (Some keys) (obj_db self))
          | [MOther] => (Fail AttributeError, self)
          | _ => (Fail (SetupError UnknownItemType_NoFields), self)
          end
      | None => (Fail (SetupError ItemClassNotDefined), self)
      end
  end.

(** [Storage._create_table] *)
Definition _create_table {conn : Type} `{Sqlite3 conn}
    (table_name : string) (fieldnames : list string) (self : Storage conn)
    : outcome unit * Storage conn :=
  match fieldnames with
  | [] => (Fail (SetupError FieldnamesNotDefined), self)
  | _ :: _ =>
      let sql_fields := join "," (filter (fun f => f <> "_id") fieldnames) in
      let SQL :=
        "CREATE TABLE IF NOT EXISTS " +:+ table_name +:+ " (" +:+ sql_fields +:+ ");" in
      match cursor_execute SQL [] self with
      | (Ok _, self') => (Done tt, self')
      | (Raise (Sqlite3Error (OperationalError err)), self') =>
          (Fail (SetupError (CreateTableError err SQL)), self')
      | (Raise e, self') => (Fail (Builtin e), self')
      end
  end.

(** [Storage.__init__]: the instance, or the exception that leaves the
    constructor.  [table.split(' ')[0]] is the head of a list that [split]
    never returns empty. *)
Definition __init__ {conn : Type} `{Sqlite3 conn} `{Sqlite3Connect conn}
    (item : option ItemClass) (uri : option string) (autocommit : pyarg)
    : outcome (StorageObject conn) :=
  match parse_uri uri with
  | Fail e => Fail e
  | Done (database, table) =>
      if negb (str_truthy database) then
        Fail (SetupError (EmptyDatabaseName database))
      else if negb (str_truthy table) then
        Fail (SetupError (EmptyTableName table))
      else
        let table0 := hd "" (split table " ") in
        match sqlite_connect database with
        | inl (OperationalError err) =>
            Fail (SetupError (ConnectError err database))
        | inl e => Fail (Builtin (Sqlite3Error e))
        | inr c =>
            let self :=
              mkStorageObject (new_storage table0 c autocommit) item None database in
            match fieldnames self with
            | (Fail e, _) => Fail e
            | (Done names, self) =>
                match _create_table table0 names (obj_storage self) with
                | (Fail e, _) => Fail e
                | (Done _, storage) =>
                    Done (mkStorageObject storage (obj_item_class self)
                            (obj_fieldnames self) (obj_db self))
                end
            end
        end
  end.

(** The module function [open]. *)
Definition open {conn : Type} `{Sqlite3 conn} `{Sqlite3Connect conn}
    (item : option ItemClass) (uri : option string) (autocommit : pyarg)
    : outcome (StorageObject conn) :=
  __init__ item uri autocommit.

(** A connection double for the examples: every database opens, empty. *)
Definition DemoConnect : Sqlite3Connect (list (list scalar)) :=
  {| sqlite_connect := fun _ => inr [] |}.

(** A driver double on which every statement and every commit fails. *)
Definition LockedSqlite3 : Sqlite3 unit :=
  {| sqlite_execute := fun _ _ _ => ExecError (OperationalError "database is locked");
     sqlite_commit := fun _ => inl (OperationalError "database is locked") |}.

(** A driver double for a table made elsewhere with a column named [_id]:
    every statement answers with the one row of that table. *)
Definition LegacySqlite3 : Sqlite3 unit :=
  {| sqlite_execute := fun c _ _ =>
       ExecOk c ["rowid"; "name"; "_id"] [[SInt 1; SStr "alice"; SInt 99]];
     sqlite_commit := fun c => inr c |}.

(** * Properties *)

(** ** The row factory *)

Lemma dict_factory_snoc (description : list string) (col : string)
    (row : list scalar) :
  _dict_factory (description ++ [col]) row =
  dict_factory_step row (_dict_factory description row) (length description, col).
Proof.
  unfold _dict_factory.
  rewrite imap_app, fold_left_app. simpl.
  by rewrite Nat.add_0_r.
Qed.

(** The keys of the dictionary are the mapped column names. *)
Lemma dict_factory_keys (description : list string) (row : list scalar) :
  forall d : Item,
    _dict_factory description row = Ok d ->
    forall k, is_Some (d !! k) <-> exists col, col ∈ description /\ k = dict_key col.
Proof.
  induction description as [|col description IH] using rev_ind; intros d Hd k.
  - injection Hd as <-. rewrite lookup_empty. split.
    + intros [? ?]; discriminate.
    + intros (col & Hin & _). by apply not_elem_of_nil in Hin.
  - rewrite dict_factory_snoc in Hd. unfold dict_factory_step in Hd. simpl in Hd.
    destruct (_dict_factory description row) as [d0|]; [|discriminate].
    destruct (row !! length description) as [v|]; [|discriminate].
    injection Hd as <-.
    specialize (IH d0 eq_refl k).
    destruct (decide (dict_key col = k)) as [<-|Hne].
    + rewrite lookup_insert_eq. split; [|eauto].
      intros _. exists col. split; [|done]. apply elem_of_app. right. by left.
    + rewrite lookup_insert_ne by done. rewrite IH. split.
      * intros (c & Hin & ->). exists c. split; [|done].
        apply elem_of_app. by left.
      * intros (c & Hin & ->). apply elem_of_app in Hin as [Hin|Hin]; [eauto|].
        apply list_elem_of_singleton in Hin as ->. done.
Qed.

(** A column is read back under its mapped name unless a later column is
    mapped to the same key. *)
Lemma dict_factory_lookup (description : list string) (row : list scalar) :
  forall d : Item,
    _dict_factory description row = Ok d ->
    forall (idx : nat) (col : string),
      description !! idx = Some col ->
      (forall (j : nat) (col' : string),
          (idx < j)%nat -> description !! j = Some col' -> dict_key col' <> dict_key col) ->
      d !! dict_key col = row !! idx.
Proof.
  induction description as [|c description IH] using rev_ind;
    intros d Hd idx col Hidx Hlast.
  - discriminate.
  - rewrite dict_factory_snoc in Hd. unfold dict_factory_step in Hd. simpl in Hd.
    destruct (_dict_factory description row) as [d0|]; [|discriminate].
    destruct (row !! length description) as [v|] eqn:Hv; [|discriminate].
    injection Hd as <-.
    destruct (decide (idx < length description)%nat) as [Hlt|Hge].
    + rewrite lookup_app_l in Hidx by done.
      rewrite lookup_insert_ne.
      * apply IH; [done..|].
        intros j col' Hj Hcol'. apply (Hlast j col' Hj).
        rewrite lookup_app_l; [done|]. by eapply lookup_lt_Some.
      * apply (Hlast (length description) c Hlt).
        rewrite lookup_app_r by lia. by rewrite Nat.sub_diag.
    + assert (idx = length description) as ->.
      { apply lookup_lt_Some in Hidx. rewrite length_app in Hidx. simpl in Hidx. lia. }
      rewrite lookup_app_r in Hidx by lia. rewrite Nat.sub_diag in Hidx.
      injection Hidx as ->. by rewrite lookup_insert_eq.
Qed.

Lemma row_factory_all_Forall2 (description : list string)
    (rows : list (list scalar)) :
  forall items : list Item,
    row_factory_all description rows = Ok items ->
    Forall2 (fun row item => _dict_factory description row = Ok item) rows items.
Proof.
  induction rows as [|row rows IH]; intros items Hitems; simpl in Hitems.
  - injection Hitems as <-. constructor.
  - destruct (_dict_factory description row) as [d|] eqn:Hd; [|discriminate].
    destruct (row_factory_all description rows) as [ds|]; [|discriminate].
    injection Hitems as <-. constructor; auto.
Qed.

(** ** The statements of [get] and [delete] *)

Lemma append_cons (x : ascii) (a b : string) :
  String x a +:+ b = String x (a +:+ b).
Proof. reflexivity. Qed.

Lemma append_assoc (a b c : string) : (a +:+ b) +:+ c = a +:+ (b +:+ c).
Proof.
  induction a as [|x a IH]; [reflexivity|].
  rewrite !append_cons. by f_equal.
Qed.

Lemma append_empty_r (a : string) : a +:+ "" = a.
Proof.
  induction a as [|x a IH]; [reflexivity|].
  rewrite append_cons. by f_equal.
Qed.

Section StorageFacts.
Context {conn : Type} `{Sqlite3 conn}.
Context {builder : Type} `{WhereBuilderClass builder}.

Lemma get_eq (criteria : filter_input) (self : Storage conn) :
  get criteria self =
  match parse WhereBuilder_new criteria with
  | Raise e => (Raise e, self)
  | Ok WHERE =>
      let SQL := select_statement (_table self) WHERE in
      let log := calls self ++ [Execute SQL []] in
      match sqlite_execute (_conn self) SQL [] with
      | ExecOk c description rows =>
          (match row_factory_all description rows with
           | Ok rs => Ok (map _item_class rs)
           | Raise e => Raise e
           end,
           mkStorage (_table self) (_autocommit self) (_commit_counter self)
             c (description, []) log)
      | ExecError e =>
          (Raise (Sqlite3Error e),
           mkStorage (_table self) (_autocommit self) (_commit_counter self)
             (_conn self) (_cursor self) log)
      end
  end.
Proof.
  unfold get, bind, lift, ret, select_statement.
  destruct (parse WhereBuilder_new criteria) as [WHERE|e]; [|done].
  assert (Hsql :
    (if str_truthy WHERE
     then join " " ["SELECT rowid,* FROM " +:+ _table self; "WHERE"; WHERE; ";"]
     else join "" ["SELECT rowid,* FROM " +:+ _table self; ";"]) =
    (if str_truthy WHERE
     then "SELECT rowid,* FROM " +:+ _table self +:+ " WHERE " +:+ WHERE +:+ " ;"
     else "SELECT rowid,* FROM " +:+ _table self +:+ ";")).
  { destruct (str_truthy WHERE); unfold join; cbn [String.concat];
      by rewrite ?append_assoc. }
  rewrite Hsql. clear Hsql.
  unfold cursor_execute, cursor_fetchall. cbv zeta.
  destruct (sqlite_execute _ _ _) as [c description rows|e]; [|done].
  simpl. by destruct (row_factory_all description rows).
Qed.

Lemma delete_eq (criteria : filter_input) (_all : bool) (self : Storage conn) :
  delete criteria _all self =
  match delete_criteria criteria with
  | Raise e => (Raise e, self)
  | Ok criteria' =>
      match parse WhereBuilder_new criteria' with
      | Raise e => (Raise e, self)
      | Ok WHERE =>
          match delete_statement (_table self) WHERE _all with
          | None => (Raise (RuntimeError CriteriaNotDefined), self)
          | Some SQL => cursor_execute SQL [] self
          end
      end
  end.
Proof.
  unfold delete, delete_criteria, bind, lift, ret, raise, delete_statement.
  destruct criteria as [|m|r]; simpl.
  1,2: destruct (parse WhereBuilder_new _) as [WHERE|e]; [|done];
       destruct (str_truthy WHERE), _all; simpl; unfold join; simpl;
       by rewrite ?append_assoc, ?append_empty_r.
  destruct (r !! "_id") as [id|]; [|done].
  destruct (parse WhereBuilder_new _) as [WHERE|e]; [|done].
  destruct (str_truthy WHERE), _all; simpl; unfold join; simpl;
    by rewrite ?append_assoc, ?append_empty_r.
Qed.

End StorageFacts.

(** ** Parameter binding in [get] and [delete] *)

(** C1, as the code has it: [Storage.get] and [Storage.delete] splice the
    string returned by [WhereBuilder().parse] after the [WHERE] keyword and
    call [execute] with the statement text alone, so that no parameter is
    bound: every call they make on the driver carries the empty parameter
    sequence. *)
Theorem get_delete_execute_without_parameters
    {conn : Type} `{Sqlite3 conn} {builder : Type} `{WhereBuilderClass builder}
    (criteria : filter_input) (_all : bool) (self : Storage conn) :
  calls (get criteria self).2 =
    calls self ++
    match parse WhereBuilder_new criteria with
    | Ok WHERE => [Execute (select_statement (_table self) WHERE) []]
    | Raise _ => []
    end
  /\
  calls (delete criteria _all self).2 =
    calls self ++
    match delete_criteria criteria with
    | Ok criteria' =>
        match parse WhereBuilder_new criteria' with
        | Ok WHERE =>
            match delete_statement (_table self) WHERE _all with
            | Some SQL => [Execute SQL []]
            | None => []
            end
        | Raise _ => []
        end
    | Raise _ => []
    end.
Proof.
  split.
  - rewrite get_eq.
    destruct (parse WhereBuilder_new criteria) as [WHERE|e]; simpl.
    + by destruct (sqlite_execute _ _ _).
    + by rewrite app_nil_r.
  - rewrite delete_eq.
    destruct (delete_criteria criteria) as [criteria'|e]; simpl;
      [|by rewrite app_nil_r].
    destruct (parse WhereBuilder_new criteria') as [WHERE|e]; simpl;
      [|by rewrite app_nil_r].
    destruct (delete_statement (_table self) WHERE _all) as [SQL|]; simpl;
      [|by rewrite app_nil_r].
    unfold cursor_execute. by destruct (sqlite_execute _ _ _).
Qed.

(** C1, as stated, fails: for the criteria [{"age": {"greater-than": 18}}]
    the translation has the parameter [18], and [get] executes its statement
    without binding it. *)
Lemma get_binds_parameters_counterexample :
  let input := FMapping [("age", Descriptor [("greater-than", Scalar (SInt 18))])] in
  let self := demo_storage (ABool false) in
  translate_input input = Ok (mkTranslation "age > ?" [SInt 18]) /\
  calls (demo_get input self).2 =
    [Execute "SELECT rowid,* FROM items WHERE age > ? ;" []] /\
  ~ (exists SQL, In (Execute SQL [SInt 18]) (calls (demo_get input self).2)).
Proof.
  split; [reflexivity|]. split; [reflexivity|].
  intros (SQL & Hin).
  change (calls (demo_get _ _).2) with
    [Execute "SELECT rowid,* FROM items WHERE age > ? ;" []] in Hin.
  destruct Hin as [Hin|[]]. discriminate.
Qed.

(** ** Records as criteria *)

(** C4: [Storage.delete] called with a record behaves as [delete] called
    with the mapping [{'_id': r['_id']}], whatever the other fields of the
    record hold. *)
Theorem delete_record_by_identity
    {conn : Type} `{Sqlite3 conn} {builder : Type} `{WhereBuilderClass builder}
    (r : Item) (id : scalar) (_all : bool) (self : Storage conn) :
  r !! "_id" = Some id ->
  delete (FRecord r) _all self =
    delete (FMapping [("_id", Bare (Scalar id))]) _all self
  /\
  forall r' : Item,
    r' !! "_id" = Some id ->
    delete (FRecord r') _all self = delete (FRecord r) _all self.
Proof.
  intros Hid.
  assert (Hnorm : forall r0 : Item, r0 !! "_id" = Some id ->
            delete (FRecord r0) _all self =
            delete (FMapping [("_id", Bare (Scalar id))]) _all self).
  { intros r0 Hr0. rewrite !delete_eq. simpl. by rewrite Hr0. }
  split; [by apply Hnorm|].
  intros r' Hr'. by rewrite !Hnorm.
Qed.

Lemma delete_record_by_identity_witness :
  let r : Item := <["_id" := SInt 7]> (<["name" := SStr "alice"]> ∅) in
  let self := demo_storage (ABool false) in
  r !! "_id" = Some (SInt 7) /\
  demo_delete (FRecord r) false self =
    demo_delete (FMapping [("_id", Bare (Scalar (SInt 7)))]) false self.
Proof.
  split; [reflexivity|].
  apply (@delete_record_by_identity _ DemoSqlite3 _ SpecWhereBuilder
           (<["_id" := SInt 7]> (<["name" := SStr "alice"]> ∅)) (SInt 7) false
           (demo_storage (ABool false))).
  reflexivity.
Defined.

(** The same normalization in the criteria model of the specification. *)
Lemma buildCriteria_record (r : Item) (id : scalar) :
  r !! "_id" = Some id ->
  buildCriteria (FRecord r) = buildCriteria (FMapping [("_id", Bare (Scalar id))]).
Proof. intros Hid. simpl. by rewrite Hid. Qed.

(** ** Rows returned by [get] *)

Lemma dict_factory_total (description : list string) (row : list scalar) :
  (length description <= length row)%nat ->
  exists d : Item, _dict_factory description row = Ok d.
Proof.
  induction description as [|col description IH] using rev_ind; intros Hlen.
  - by exists ∅.
  - rewrite length_app in Hlen. simpl in Hlen.
    destruct IH as [d Hd]; [lia|].
    rewrite dict_factory_snoc, Hd. unfold dict_factory_step. simpl.
    destruct (lookup_lt_is_Some_2 row (length description)) as [v Hv]; [lia|].
    rewrite Hv. eauto.
Qed.

Lemma row_factory_all_total (description : list string)
    (rows : list (list scalar)) :
  Forall (fun row => (length description <= length row)%nat) rows ->
  exists items : list Item, row_factory_all description rows = Ok items.
Proof.
  induction 1 as [|row rows Hrow _ IH]; simpl; [eauto|].
  destruct (dict_factory_total description row Hrow) as [d ->].
  destruct IH as [ds ->]. eauto.
Qed.

(** C9, as the code has it: every record returned by [Storage.get] is a
    row of the result set passed through [_dict_factory]: its keys are the
    column names with [rowid] replaced by [_id], and a column is read back
    under its key, the [rowid] column under [_id] and every other column
    under its own name, unless a later column of the result set is mapped to
    the same key, whose value is then the one kept.  The mapping happens in
    [Storage], after the fetch. *)
Theorem get_rows_expose_rowid_as_id
    {conn : Type} `{Sqlite3 conn} {builder : Type} `{WhereBuilderClass builder}
    (criteria : filter_input) (self self' : Storage conn) (items : list Item) :
  get criteria self = (Ok items, self') ->
  exists (SQL : string) (c : conn) (description : list string)
         (rows : list (list scalar)),
    sqlite_execute (_conn self) SQL [] = ExecOk c description rows /\
    Forall2
      (fun (row : list scalar) (item : Item) =>
         (forall k, is_Some (item !! k) <->
                    exists col, col ∈ description /\
                                k = if decide (col = "rowid") then "_id" else col) /\
         (forall (idx : nat) (col : string),
             description !! idx = Some col ->
             (forall (j : nat) (col' : string),
                 (idx < j)%nat -> description !! j = Some col' ->
                 dict_key col' <> dict_key col) ->
             (col = "rowid" -> item !! "_id" = row !! idx) /\
             (col <> "rowid" -> item !! col = row !! idx)))
      rows items.
Proof.
  rewrite get_eq. intros Hget.
  destruct (parse WhereBuilder_new criteria) as [WHERE|e]; [|discriminate].
  simpl in Hget.
  destruct (sqlite_execute _ _ _) as [c description rows|e] eqn:Hexec;
    [|discriminate].
  destruct (row_factory_all description rows) as [rs|e] eqn:Hrs; [|discriminate].
  injection Hget as <- _.
  exists (select_statement (_table self) WHERE), c, description, rows.
  split; [done|].
  unfold _item_class. rewrite map_id.
  apply row_factory_all_Forall2 in Hrs.
  eapply Forall2_impl; [exact Hrs|].
  intros row item Hitem. split.
  - intros k. apply (dict_factory_keys description row item Hitem k).
  - intros idx col Hcol Hlast.
    pose proof (dict_factory_lookup description row item Hitem idx col Hcol Hlast)
      as Hlook.
    unfold dict_key in Hlook at 1.
    split; intros Hc; destruct (decide (col = "rowid")); done.
Qed.

Lemma get_rows_expose_rowid_as_id_witness :
  exists (SQL : string) (c : list (list scalar)) (description : list string)
         (rows : list (list scalar)),
    demo_execute demo_rows SQL [] = ExecOk c description rows /\
    Forall2
      (fun (row : list scalar) (item : Item) =>
         (forall k, is_Some (item !! k) <->
                    exists col, col ∈ description /\
                                k = if decide (col = "rowid") then "_id" else col) /\
         (forall (idx : nat) (col : string),
             description !! idx = Some col ->
             (forall (j : nat) (col' : string),
                 (idx < j)%nat -> description !! j = Some col' ->
                 dict_key col' <> dict_key col) ->
             (col = "rowid" -> item !! "_id" = row !! idx) /\
             (col <> "rowid" -> item !! col = row !! idx)))
      rows
      [ (<["age" := SInt 30]> (<["name" := SStr "alice"]> (<["_id" := SInt 1]> ∅)));
        (<["age" := SInt 17]> (<["name" := SStr "bob"]> (<["_id" := SInt 2]> ∅))) ].
Proof.
  apply (@get_rows_expose_rowid_as_id _ DemoSqlite3 _ SpecWhereBuilder
           FNone (demo_storage (ABool false))
           (demo_get FNone (demo_storage (ABool false))).2).
  vm_compute. reflexivity.
Defined.

(** C9, as stated, fails: on a table that has a column named [_id] the
    result set of [get] has the columns [rowid], [name] and [_id], and the
    record carries under [_id] the value 99 of that column, not the value 1
    of the [rowid] column. *)
Lemma get_rowid_as_id_counterexample :
  let self := @new_storage unit "items" tt (ABool false) in
  let item : Item :=
    <["_id" := SInt 99]> (<["name" := SStr "alice"]> (<["_id" := SInt 1]> ∅)) in
  @sqlite_execute _ LegacySqlite3 (_conn self) "SELECT rowid,* FROM items;" []
    = ExecOk tt ["rowid"; "name"; "_id"] [[SInt 1; SStr "alice"; SInt 99]] /\
  (@get _ LegacySqlite3 _ SpecWhereBuilder FNone self).1 = Ok [item] /\
  item !! "_id" = Some (SInt 99) /\
  item !! "_id" <> [SInt 1; SStr "alice"; SInt 99] !! 0%nat.
Proof.
  split; [reflexivity|]. split; [vm_compute; reflexivity|].
  split; [reflexivity|]. vm_compute. discriminate.
Qed.

(** ** No criteria *)

(** C3: for [None] and for the empty mapping the translation is the empty
    fragment with no parameters; given that empty string, [Storage.get]
    emits no [WHERE] keyword, executes [SELECT rowid,* FROM <table>;] and
    returns one record for every row the database answers with, in order. *)
Theorem get_without_criteria_selects_all
    {conn : Type} `{Sqlite3 conn} {builder : Type} `{WhereBuilderClass builder}
    (criteria : filter_input) (self : Storage conn) :
  criteria = FNone \/ criteria = FMapping [] ->
  parse WhereBuilder_new criteria = Ok "" ->
  translate_input criteria = Ok (mkTranslation "" []) /\
  calls (get criteria self).2 =
    calls self ++ [Execute ("SELECT rowid,* FROM " +:+ _table self +:+ ";") []] /\
  forall (c : conn) (description : list string) (rows : list (list scalar)),
    sqlite_execute (_conn self) ("SELECT rowid,* FROM " +:+ _table self +:+ ";") []
      = ExecOk c description rows ->
    Forall (fun row => (length description <= length row)%nat) rows ->
    exists items : list Item,
      (get criteria self).1 = Ok items /\
      Forall2 (fun row item => _dict_factory description row = Ok item) rows items.
Proof.
  intros Hcrit Hparse. split; [by destruct Hcrit as [-> | ->]|].
  rewrite get_eq, Hparse. unfold select_statement. simpl. split.
  - by destruct (sqlite_execute _ _ _).
  - intros c description rows -> Hrows. simpl.
    destruct (row_factory_all_total description rows Hrows) as [items Hitems].
    rewrite Hitems. exists (map _item_class items). split; [done|].
    unfold _item_class. rewrite map_id. by apply row_factory_all_Forall2.
Qed.

Lemma get_without_criteria_selects_all_witness :
  calls (demo_get FNone (demo_storage (ABool false))).2 =
    [Execute "SELECT rowid,* FROM items;" []].
Proof.
  refine (proj1 (proj2 (@get_without_criteria_selects_all _ DemoSqlite3 _
                          SpecWhereBuilder FNone (demo_storage (ABool false)) _ _))).
  - left. reflexivity.
  - reflexivity.
Defined.

(** ** Deleting without criteria *)

Lemma delete_false_calls
    {conn : Type} `{Sqlite3 conn} {builder : Type} `{WhereBuilderClass builder}
    (criteria : filter_input) (self : Storage conn) :
  exists new : list call,
    calls (delete criteria false self).2 = calls self ++ new /\
    (new = [] \/
     exists W : string,
       new = [Execute ("DELETE FROM " +:+ _table self +:+ " WHERE " +:+ W
                         +:+ " ;" +:+ "") []]).
Proof.
  rewrite delete_eq.
  destruct (delete_criteria criteria) as [criteria'|e]; simpl;
    [|exists []; rewrite app_nil_r; auto].
  destruct (parse WhereBuilder_new criteria') as [WHERE|e]; simpl;
    [|exists []; rewrite app_nil_r; auto].
  unfold delete_statement.
  destruct (str_truthy WHERE); simpl; [|exists []; rewrite app_nil_r; auto].
  eexists. split.
  - unfold cursor_execute. by destruct (sqlite_execute _ _ _).
  - right. by exists WHERE.
Qed.

(** C10: with absent or empty criteria, for which [parse] gives the empty
    string, [Storage.delete] with [_all=False] raises [RuntimeError] and
    leaves the storage and the database untouched, no statement being
    executed; with [_all=True] it executes [DELETE FROM <table>;].  The
    statement without [WHERE] is executed by no call with [_all=False]. *)
Theorem delete_without_criteria
    {conn : Type} `{Sqlite3 conn} {builder : Type} `{WhereBuilderClass builder}
    (criteria : filter_input) (self : Storage conn) :
  criteria = FNone \/ criteria = FMapping [] ->
  parse WhereBuilder_new criteria = Ok "" ->
  delete criteria false self = (Raise (RuntimeError CriteriaNotDefined), self) /\
  calls (delete criteria true self).2 =
    calls self ++ [Execute ("DELETE FROM " +:+ _table self +:+ ";") []] /\
  forall (criteria' : filter_input) (params : list scalar),
    ~ In (Execute ("DELETE FROM " +:+ _table self +:+ ";") params)
         (drop (length (calls self)) (calls (delete criteria' false self).2)).
Proof.
  intros Hcrit Hparse.
  assert (Hnorm : delete_criteria criteria = Ok criteria)
    by (by destruct Hcrit as [-> | ->]).
  split; [|split].
  - by rewrite delete_eq, Hnorm, Hparse.
  - rewrite delete_eq, Hnorm, Hparse. simpl. unfold cursor_execute.
    by destruct (sqlite_execute _ _ _).
  - intros criteria' params.
    destruct (delete_false_calls criteria' self) as (new & -> & Hnew).
    rewrite drop_app_length.
    destruct Hnew as [-> | [W ->]]; simpl; [tauto|].
    intros [Heq|[]]. injection Heq as Heq _.
    do 2 apply String.app_inj in Heq.
    rewrite append_cons in Heq. discriminate.
Qed.

Lemma delete_without_criteria_witness :
  demo_delete FNone false (demo_storage (ABool false)) =
    (Raise (RuntimeError CriteriaNotDefined), demo_storage (ABool false)).
Proof.
  refine (proj1 (@delete_without_criteria _ DemoSqlite3 _ SpecWhereBuilder
                   FNone (demo_storage (ABool false)) _ _)).
  - left. reflexivity.
  - reflexivity.
Defined.

(** ** Batched auto-commit *)

Lemma batched_trace_ext (due due' : nat -> bool)
    (stmts : list (string * list scalar)) :
  forall j j' : nat,
    (forall i : nat, due (j + i)%nat = due' (j' + i)%nat) ->
    batched_trace due j stmts = batched_trace due' j' stmts.
Proof.
  induction stmts as [|[SQL values] rest IH]; intros j j' Hdue; simpl; [done|].
  pose proof (Hdue 0%nat) as H0. rewrite !Nat.add_0_r in H0. rewrite H0.
  do 2 f_equal. apply IH. intros i.
  specialize (Hdue (S i)). by rewrite <- !Nat.add_succ_comm in Hdue.
Qed.

Section Autocommit.
Context {conn : Type} `{Sqlite3 conn}.

Lemma do_autocommit_spec (self : Storage conn) :
  let due := commit_due (_autocommit self) (_commit_counter self) 1 in
  (exists self' : Storage conn,
      _do_autocommit self = (Ok tt, self') /\
      _autocommit self' = _autocommit self /\
      calls self' = calls self ++ (if due then [Commit] else []) /\
      _commit_counter self' = (if due then 0 else _commit_counter self + 1)) \/
  (exists (err : sqlite3_error) (self' : Storage conn),
      _do_autocommit self = (Raise (Sqlite3Error err), self') /\
      due = true /\
      sqlite_commit (_conn self) = inl err /\
      calls self' = calls self ++ [Commit] /\
      _commit_counter self' = _commit_counter self + 1 /\
      _conn self' = _conn self /\ _cursor self' = _cursor self).
Proof.
  unfold _do_autocommit, commit_due, bind, commit, set_commit_counter.
  destruct self as [t a c db cur log]. simpl.
  destruct a as [[|]|N|]; simpl.
  - destruct (sqlite_commit db) as [err|db'] eqn:Hcommit.
    + right. exists err. eexists. split; [reflexivity|]. simpl. auto 10.
    + left. eexists. split; [reflexivity|]. simpl. auto.
  - left. eexists. split; [reflexivity|]. simpl. by rewrite app_nil_r.
  - destruct (0 <? N); simpl.
    + change (Z.of_nat 1) with 1.
      destruct ((c + 1) mod N =? 0).
      * destruct (sqlite_commit db) as [err|db'] eqn:Hcommit.
        -- right. exists err. eexists. split; [reflexivity|]. simpl. auto 10.
        -- left. eexists. split; [reflexivity|]. simpl. auto.
      * left. eexists. split; [reflexivity|]. simpl. by rewrite app_nil_r.
    + left. eexists. split; [reflexivity|]. simpl. by rewrite app_nil_r.
  - left. eexists. split; [reflexivity|]. simpl. by rewrite app_nil_r.
Qed.

(** A [put] of one item that returns has executed one statement, then
    committed when a commit was due. *)
Lemma put_one_ok (item : Item) (self self' : Storage conn) :
  _put_one item self = (Ok tt, self') ->
  let due := commit_due (_autocommit self) (_commit_counter self) 1 in
  exists (SQL : string) (values : list scalar),
    _autocommit self' = _autocommit self /\
    calls self' = calls self ++ Execute SQL values :: (if due then [Commit] else []) /\
    _commit_counter self' = (if due then 0 else _commit_counter self + 1).
Proof.
  intros Hput due. unfold _put_one in Hput.
  assert (Hgen : forall (q : string) (v : list scalar),
    match cursor_execute q v self with
    | (Raise (Sqlite3Error (OperationalError err)), s) =>
        (Raise (RuntimeError (ItemPutError err q v)), s)
    | (Raise e, s) => (Raise e, s)
    | (Ok _, s) => _do_autocommit s
    end = (Ok tt, self') ->
    _autocommit self' = _autocommit self /\
    calls self' = calls self ++ Execute q v :: (if due then [Commit] else []) /\
    _commit_counter self' = (if due then 0 else _commit_counter self + 1)).
  { intros q v. unfold cursor_execute.
    destruct (sqlite_execute (_conn self) q v) as [c description rows|[msg|msg]];
      [|discriminate..].
    intros Hauto.
    match type of Hauto with
    | _do_autocommit ?s = _ =>
        destruct (do_autocommit_spec s)
          as [(s' & Hs' & Ha & Hc & Hn)|(err & s' & Hs' & _)]
    end; rewrite Hs' in Hauto; [|discriminate].
    injection Hauto as <-.
    simpl in Ha, Hc, Hn. fold due in Hc, Hn.
    rewrite Ha, Hc, Hn, <- app_assoc. auto. }
  destruct (item !! "_id") as [id|]; cbv beta iota zeta in Hput;
    apply Hgen in Hput; eauto.
Qed.

End Autocommit.

Lemma commit_due_shift (autocommit : pyarg) (c : Z) (j : nat) :
  commit_due autocommit c (S j) = commit_due autocommit (next_counter autocommit c) j.
Proof.
  unfold next_counter, commit_due.
  destruct autocommit as [b|N|]; [by destruct b| |done].
  destruct (Z.ltb_spec 0 N) as [HN|HN]; simpl.
  - change (Z.of_nat 1) with 1.
    replace (c + Z.of_nat (S j)) with ((c + 1) + Z.of_nat j) by lia.
    destruct (Z.eqb_spec ((c + 1) mod N) 0) as [Hz|Hz]; [|done].
    by rewrite Zplus_mod, Hz, Z.add_0_l, Zmod_mod.
  - reflexivity.
Qed.

Lemma iter_next_counter_true (k : nat) (c : Z) :
  k <> 0%nat -> Nat.iter k (next_counter (ABool true)) c = 0.
Proof. destruct k; [done|]. reflexivity. Qed.

Lemma iter_next_counter_never (autocommit : pyarg) (k : nat) (c : Z) :
  (forall c' : Z, commit_due autocommit c' 1 = false) ->
  Nat.iter k (next_counter autocommit) c = c + Z.of_nat k.
Proof.
  intros Hnever. induction k as [|k IH]; simpl; [lia|].
  rewrite IH. unfold next_counter. rewrite Hnever. lia.
Qed.

Lemma iter_next_counter_int (N : Z) (k : nat) (c : Z) :
  0 < N -> 0 <= c < N ->
  Nat.iter k (next_counter (AInt N)) c = (c + Z.of_nat k) mod N.
Proof.
  intros HN Hc. induction k as [|k IH]; simpl.
  - rewrite Z.add_0_r. symmetry. by apply Z.mod_small.
  - rewrite IH. unfold next_counter, commit_due.
    change (Z.of_nat 1) with 1.
    destruct (Z.ltb_spec 0 N) as [_|?]; [|lia]. simpl.
    replace (c + Z.of_nat (S k)) with ((c + Z.of_nat k) + 1) by lia.
    rewrite <- (Zplus_mod_idemp_l (c + Z.of_nat k) 1 N).
    pose proof (Z.mod_pos_bound (c + Z.of_nat k) N HN) as Hm.
    destruct (Z.eqb_spec (((c + Z.of_nat k) mod N + 1) mod N) 0) as [-> | Hnz];
      [done|].
    symmetry. apply Z.mod_small.
    destruct (decide ((c + Z.of_nat k) mod N + 1 = N)) as [Heq|Hneq]; [|lia].
    rewrite Heq, Z_mod_same_full in Hnz. done.
Qed.

Section AutocommitRuns.
Context {conn : Type} `{Sqlite3 conn}.

Lemma put_many_trace (items : list Item) :
  forall self self' : Storage conn,
    _put_many (map ObjItem items) self = (Ok tt, self') ->
    exists stmts : list (string * list scalar),
      length stmts = length items /\
      _autocommit self' = _autocommit self /\
      calls self' =
        calls self ++
        batched_trace (commit_due (_autocommit self) (_commit_counter self)) 1 stmts /\
      _commit_counter self' =
        Nat.iter (length items) (next_counter (_autocommit self)) (_commit_counter self).
Proof.
  induction items as [|item items IH]; intros self self' Hrun.
  - injection Hrun as <-. exists []. simpl. by rewrite app_nil_r.
  - simpl in Hrun. unfold bind in Hrun.
    destruct (_put_one item self) as [[[]|e] self1] eqn:Hone; [|discriminate].
    destruct (put_one_ok item self self1 Hone) as (SQL & values & Ha1 & Hc1 & Hn1).
    destruct (IH self1 self' Hrun) as (stmts & Hlen & Ha & Hc & Hn).
    exists ((SQL, values) :: stmts).
    rewrite Ha1 in Ha, Hc, Hn. fold (next_counter (_autocommit self) (_commit_counter self)) in Hn1.
    rewrite Hn1 in Hc, Hn.
    split; [simpl; by rewrite Hlen|]. split; [done|]. split.
    + rewrite Hc, Hc1, <- app_assoc. simpl. do 3 f_equal.
      apply batched_trace_ext. intros i. simpl.
      by rewrite (commit_due_shift _ (_commit_counter self)).
    + rewrite Hn. simpl. by rewrite <- Nat.iter_succ_r.
Qed.

(** C8: a run of successful [put]s executes one statement per item, and
    the [j]-th is followed by [commit()] exactly when a commit is due:
    after every [put] for [autocommit=True], after none for
    [autocommit=False], after every [N]-th for an integer [N > 0], the
    commit counter being back at zero after each automatic commit and
    counting the [put]s since otherwise. *)
Theorem autocommit_batching (items : list Item) (self self' : Storage conn) :
  put (PSeq (map ObjItem items)) self = (Ok tt, self') ->
  exists stmts : list (string * list scalar),
    length stmts = length items /\
    calls self' =
      calls self ++
      batched_trace
        (fun j : nat =>
           match _autocommit self with
           | ABool b => b
           | AInt N => (0 <? N) && ((_commit_counter self + Z.of_nat j) mod N =? 0)
           | AOther => false
           end) 1 stmts /\
    match _autocommit self with
    | ABool true => items <> [] -> _commit_counter self' = 0
    | AInt N =>
        if 0 <? N then
          0 <= _commit_counter self < N ->
          _commit_counter self' = (_commit_counter self + Z.of_nat (length items)) mod N
        else _commit_counter self' = _commit_counter self + Z.of_nat (length items)
    | _ => _commit_counter self' = _commit_counter self + Z.of_nat (length items)
    end.
Proof.
  intros Hrun. simpl in Hrun.
  destruct (put_many_trace items self self' Hrun) as (stmts & Hlen & _ & Hc & Hn).
  exists stmts. split; [done|]. split; [exact Hc|].
  rewrite Hn.
  destruct (_autocommit self) as [[|]|N|] eqn:Ha.
  - intros Hne. apply iter_next_counter_true. by destruct items.
  - by apply iter_next_counter_never.
  - destruct (Z.ltb_spec 0 N) as [HN|HN].
    + intros Hrange. by apply iter_next_counter_int.
    + apply iter_next_counter_never. intros c'. unfold commit_due.
      destruct (Z.ltb_spec 0 N); [lia|done].
  - by apply iter_next_counter_never.
Qed.

End AutocommitRuns.

Lemma autocommit_batching_witness :
  let self := demo_storage (AInt 2) in
  let items : list Item :=
    [ {["name" := SStr "carol"]}; {["name" := SStr "dave"]};
      <["_id" := SInt 1]> {["name" := SStr "al"]} ] in
  let self' := (demo_put (PSeq (map ObjItem items)) self).2 in
  calls self' =
    [ Execute "INSERT INTO items (name) VALUES (?);" [SStr "carol"];
      Execute "INSERT INTO items (name) VALUES (?);" [SStr "dave"];
      Commit;
      Execute "UPDATE items SET name=? WHERE rowid=?;" [SStr "al"; SInt 1] ] /\
  exists stmts : list (string * list scalar),
    length stmts = 3%nat /\
    calls self' =
      [] ++ batched_trace (fun j : nat => true && ((0 + Z.of_nat j) mod 2 =? 0)) 1 stmts /\
    (0 <= 0 < 2 -> _commit_counter self' = (0 + 3) mod 2).
Proof.
  split; [vm_compute; reflexivity|].
  apply (@autocommit_batching _ DemoSqlite3
           [ {["name" := SStr "carol"]}; {["name" := SStr "dave"]};
             <["_id" := SInt 1]> {["name" := SStr "al"]} ]
           (demo_storage (AInt 2))).
  vm_compute. reflexivity.
Defined.

(** ** The translator: placeholders and parameters *)

Lemma count_placeholders_app (a b : string) :
  count_placeholders (a +:+ b) = (count_placeholders a + count_placeholders b)%nat.
Proof.
  induction a as [|x a IH]; [reflexivity|].
  rewrite append_cons. simpl. rewrite IH. lia.
Qed.

Lemma ident_char_not_placeholder (a : ascii) :
  ident_char a = true -> a <> "?"%char.
Proof. intros Ha ->. discriminate. Qed.

Lemma count_placeholders_ident (f : string) :
  forallb ident_char (list_ascii_of_string f) = true ->
  count_placeholders f = 0%nat.
Proof.
  induction f as [|x f IH]; simpl; [done|].
  intros [Hx Hf]%andb_prop.
  destruct (decide (x = "?"%char)) as [->|_]; [discriminate|]. by apply IH.
Qed.

Lemma count_placeholders_list (n : nat) :
  count_placeholders (placeholders n) = n.
Proof.
  unfold placeholders, join.
  induction n as [|n IH]; [reflexivity|].
  destruct n as [|n]; [reflexivity|].
  change (repeat "?" (S (S n))) with ("?" :: repeat "?" (S n)).
  change (String.concat ", " ("?" :: repeat "?" (S n)))
    with ("?" +:+ ", " +:+ String.concat ", " (repeat "?" (S n))).
  rewrite !count_placeholders_app, IH. reflexivity.
Qed.

(** A valid Criterion emits as many placeholders as parameters. *)
Lemma criterion_placeholders (c : Criterion) :
  valid_criterion c = true ->
  count_placeholders (criterion_sql c) = length (criterion_parameters c).
Proof.
  unfold valid_criterion, identifier_safe.
  intros [[_ Hf]%andb_prop Hshape]%andb_prop.
  apply count_placeholders_ident in Hf.
  destruct c as [f o v]. simpl in *. unfold criterion_sql, criterion_parameters.
  simpl.
  destruct o, v as [[| [] | | |]|[|v vs]]; try discriminate;
    rewrite ?count_placeholders_app, ?count_placeholders_list, Hf;
    simpl; lia.
Qed.

Lemma count_placeholders_join (pieces : list string) :
  count_placeholders (join " AND " pieces) =
  list_sum (map count_placeholders pieces).
Proof.
  unfold join. induction pieces as [|p pieces IH]; [reflexivity|].
  destruct pieces as [|q pieces]; [simpl; lia|].
  change (String.concat " AND " (p :: q :: pieces))
    with (p +:+ " AND " +:+ String.concat " AND " (q :: pieces)).
  rewrite !count_placeholders_app, IH. simpl. lia.
Qed.

Lemma translate_loop (criteria : Criteria) :
  forall acc : list string * list scalar,
    fold_left translate_step criteria acc =
    (acc.1 ++ map criterion_sql criteria,
     acc.2 ++ concat (map criterion_parameters criteria)).
Proof.
  induction criteria as [|c criteria IH]; intros [fs ps]; simpl.
  - by rewrite !app_nil_r.
  - rewrite IH. simpl. by rewrite <- !app_assoc.
Qed.

Lemma translate_eq (criteria : Criteria) :
  translate criteria =
  if forallb valid_criterion criteria then
    Ok (mkTranslation (join " AND " (map criterion_sql criteria))
          (concat (map criterion_parameters criteria)))
  else Raise InvalidCriteria.
Proof. unfold translate. by rewrite translate_loop. Qed.

Lemma placeholders_of_valid (criteria : Criteria) :
  forallb valid_criterion criteria = true ->
  count_placeholders (join " AND " (map criterion_sql criteria)) =
  length (concat (map criterion_parameters criteria)).
Proof.
  intros Hvalid. rewrite count_placeholders_join.
  induction criteria as [|c criteria IH]; [reflexivity|].
  simpl in Hvalid. apply andb_prop in Hvalid as [Hc Hrest].
  simpl. rewrite length_app, (criterion_placeholders c Hc), IH; done.
Qed.

Lemma concat_cons (sep x : string) (l : list string) :
  l <> [] -> String.concat sep (x :: l) = x +:+ sep +:+ String.concat sep l.
Proof. by destruct l. Qed.

(** The join of a list around one of its elements. *)
Lemma concat_middle (sep x : string) (l1 l2 : list string) :
  String.concat sep (l1 ++ x :: l2) =
  String.concat sep l1 +:+ match l1 with [] => "" | _ :: _ => sep end
    +:+ x +:+ match l2 with [] => "" | _ :: _ => sep +:+ String.concat sep l2 end.
Proof.
  induction l1 as [|y l1 IH].
  - destruct l2 as [|z l2]; [simpl; by rewrite append_empty_r|].
    simpl app. by rewrite concat_cons.
  - change ((y :: l1) ++ x :: l2) with (y :: (l1 ++ x :: l2)).
    rewrite concat_cons by (by destruct l1). rewrite IH.
    destruct l1 as [|y' l1]; [reflexivity|].
    rewrite (concat_cons sep y (y' :: l1)) by done.
    by rewrite !append_assoc.
Qed.

(** C2: a valid Criteria is translated, the number of parameters is the
    number of [?] placeholders of the fragment, and they correspond from left
    to right.  The fragment is, for every Criterion of the sequence, the
    fragment of the Criterion before it, the separator, the SQL form of that
    Criterion and a rest; the parameters are those of the Criterion before
    it, its own and a rest; and the part before has as many placeholders as
    parameters, as has the SQL form of the Criterion: its placeholders are
    bound to its own parameters.  Likewise the translation of the first [k]
    Criterion has the first parameters, as many as its fragment has
    placeholders. *)
Theorem translate_placeholders_match_parameters (criteria : Criteria) :
  forallb valid_criterion criteria = true ->
  exists r : TranslationResult,
    translate criteria = Ok r /\
    count_placeholders (fragment r) = length (parameters r) /\
    (forall (j : nat) (cj : Criterion),
        criteria !! j = Some cj ->
        exists (before : TranslationResult) (text_after : string)
               (parameters_after : list scalar),
          translate (take j criteria) = Ok before /\
          fragment r =
            fragment before +:+ (if decide (j = 0%nat) then "" else " AND ")
              +:+ criterion_sql cj +:+ text_after /\
          parameters r =
            parameters before ++ criterion_parameters cj ++ parameters_after /\
          count_placeholders (fragment before) = length (parameters before) /\
          count_placeholders (criterion_sql cj) = length (criterion_parameters cj)) /\
    forall k : nat,
      exists rk : TranslationResult,
        translate (take k criteria) = Ok rk /\
        parameters rk = take (count_placeholders (fragment rk)) (parameters r).
Proof.
  intros Hvalid. rewrite translate_eq, Hvalid. eexists. split; [reflexivity|].
  simpl. split; [by apply placeholders_of_valid|].
  assert (Htake : forall k, forallb valid_criterion (take k criteria) = true).
  { intros k. apply forallb_forall. intros c Hc.
    rewrite forallb_forall in Hvalid. apply Hvalid.
    apply list_elem_of_In. apply list_elem_of_In in Hc.
    apply elem_of_take in Hc as (i & Hi & _).
    by eapply list_elem_of_lookup_2. }
  split.
  - intros j cj Hj.
    rewrite translate_eq, (Htake j). eexists. simpl.
    exists (match map criterion_sql (drop (S j) criteria) with
            | [] => ""
            | _ :: _ =>
                " AND " +:+
                String.concat " AND " (map criterion_sql (drop (S j) criteria))
            end),
           (concat (map criterion_parameters (drop (S j) criteria))).
    split; [reflexivity|]. simpl.
    assert (Hcj : valid_criterion cj = true).
    { rewrite forallb_forall in Hvalid. apply Hvalid.
      apply list_elem_of_In. by eapply list_elem_of_lookup_2. }
    split; [|split; [|split]].
    + rewrite <- (take_drop_middle criteria j cj Hj) at 1.
      rewrite map_app. simpl map. unfold join. rewrite concat_middle.
      destruct j as [|j]; [reflexivity|].
      destruct criteria as [|c0 criteria]; [discriminate|]. reflexivity.
    + rewrite <- (take_drop_middle criteria j cj Hj) at 1.
      rewrite map_app, concat_app. reflexivity.
    + by apply placeholders_of_valid.
    + by apply criterion_placeholders.
  - intros k.
    rewrite translate_eq, (Htake k). eexists. split; [reflexivity|]. simpl.
    rewrite (placeholders_of_valid _ (Htake k)).
    rewrite <- (take_drop k criteria) at 3.
    rewrite map_app, concat_app. by rewrite take_app_length.
Qed.

Lemma translate_placeholders_match_parameters_witness :
  let criteria :=
    [ mkCriterion "name" Equals (Scalar (SStr "alice"));
      mkCriterion "id" InSet (Sequence [SInt 1; SInt 2; SInt 3]);
      mkCriterion "age" IsNull (Scalar (SBool false)) ] in
  translate criteria =
    Ok (mkTranslation "name = ? AND id IN (?, ?, ?) AND age IS NOT NULL"
          [SStr "alice"; SInt 1; SInt 2; SInt 3]) /\
  exists r : TranslationResult,
    translate criteria = Ok r /\
    count_placeholders (fragment r) = length (parameters r) /\
    (forall (j : nat) (cj : Criterion),
        criteria !! j = Some cj ->
        exists (before : TranslationResult) (text_after : string)
               (parameters_after : list scalar),
          translate (take j criteria) = Ok before /\
          fragment r =
            fragment before +:+ (if decide (j = 0%nat) then "" else " AND ")
              +:+ criterion_sql cj +:+ text_after /\
          parameters r =
            parameters before ++ criterion_parameters cj ++ parameters_after /\
          count_placeholders (fragment before) = length (parameters before) /\
          count_placeholders (criterion_sql cj) = length (criterion_parameters cj)) /\
    forall k : nat,
      exists rk : TranslationResult,
        translate (take k criteria) = Ok rk /\
        parameters rk = take (count_placeholders (fragment rk)) (parameters r).
Proof.
  split; [reflexivity|].
  apply translate_placeholders_match_parameters. reflexivity.
Defined.

(** ** The translator: SQL forms and their order *)

Lemma operator_of_key_Some (k : string) (o : Operator) :
  operator_of_key k = Some o -> k = key_of_operator o.
Proof.
  unfold operator_of_key. intros Hk.
  repeat case_decide; simplify_eq; reflexivity.
Qed.

Lemma placeholders_map (vs : list scalar) :
  placeholders (length vs) = join ", " (map (fun _ => "?") vs).
Proof.
  unfold placeholders. f_equal.
  induction vs as [|v vs IH]; simpl; [done|]. by rewrite IH.
Qed.

Lemma build_criterion_ok (f : string) (e : entry) (c : Criterion) :
  build_criterion f e = Ok c ->
  field c = f /\ valid_criterion c = true /\
  entry_sql f e (criterion_sql c) (criterion_parameters c).
Proof.
  unfold build_criterion. intros Hbuild.
  destruct e as [v|[|[k v] [|]]]; try discriminate.
  - destruct (valid_criterion _) eqn:Hvalid; [|discriminate].
    injection Hbuild as <-. do 2 (split; [done|]).
    unfold valid_criterion in Hvalid. apply andb_prop in Hvalid as [_ Hshape].
    simpl in Hshape. destruct v as [v|vs]; [|discriminate]. constructor.
  - destruct (operator_of_key k) as [o|] eqn:Hk; [|discriminate].
    apply operator_of_key_Some in Hk as ->.
    destruct (valid_criterion _) eqn:Hvalid; [|discriminate].
    injection Hbuild as <-. do 2 (split; [done|]).
    unfold valid_criterion in Hvalid. apply andb_prop in Hvalid as [_ Hshape].
    simpl in Hshape. unfold criterion_sql, criterion_parameters. simpl.
    destruct o, v as [[| [] | | |]|[|v vs]]; try discriminate;
      rewrite ?placeholders_map; constructor.
Qed.

Lemma build_entries_ok (m : list (string * entry)) :
  forall cs : Criteria,
    build_entries m = Ok cs ->
    Forall2 (fun fe c => build_criterion fe.1 fe.2 = Ok c) m cs.
Proof.
  induction m as [|[f e] m IH]; intros cs Hcs; simpl in Hcs.
  - injection Hcs as <-. constructor.
  - destruct (build_criterion f e) as [c|] eqn:Hc; [|discriminate].
    destruct (build_entries m) as [cs'|]; [|discriminate].
    injection Hcs as <-. constructor; auto.
Qed.

(** What [buildCriteria] returns passes validation, so that [translate]
    accepts it. *)
Lemma buildCriteria_valid (input : filter_input) (cs : Criteria) :
  buildCriteria input = Ok cs -> forallb valid_criterion cs = true.
Proof.
  destruct input as [|m|r]; simpl.
  - by intros [= <-].
  - intros Hcs%build_entries_ok.
    induction Hcs as [|[f e] c m cs Hc _ IH]; simpl; [done|].
    apply build_criterion_ok in Hc as (_ & -> & _). done.
  - destruct (r !! "_id"); [|discriminate]. by intros [= <-].
Qed.

(** Every entry that the operator table gives a form, on an
    identifier-safe field, is built into a Criterion of that form. *)
Lemma build_criterion_complete (f : string) (e : entry) (text : string)
    (params : list scalar) :
  identifier_safe f = true ->
  entry_sql f e text params ->
  exists c : Criterion,
    build_criterion f e = Ok c /\
    criterion_sql c = text /\ criterion_parameters c = params.
Proof.
  intros Hsafe Hsql.
  assert (Hkey : forall o, operator_of_key (key_of_operator o) = Some o)
    by (by intros []).
  assert (Hbuild : forall (o : Operator) (v : value),
             shape_ok o v = true ->
             build_criterion f (Descriptor [(key_of_operator o, v)])
             = Ok (mkCriterion f o v)).
  { intros o v Hshape. unfold build_criterion. rewrite Hkey.
    unfold valid_criterion. simpl. by rewrite Hsafe, Hshape. }
  destruct Hsql.
  1: { exists (mkCriterion f Equals (Scalar v)). split; [|done].
       unfold build_criterion, valid_criterion. simpl. by rewrite Hsafe. }
  1: exists (mkCriterion f Equals (Scalar v)).
  2: exists (mkCriterion f NotEquals (Scalar v)).
  3: exists (mkCriterion f GreaterThan (Scalar v)).
  4: exists (mkCriterion f GreaterOrEqual (Scalar v)).
  5: exists (mkCriterion f LessThan (Scalar v)).
  6: exists (mkCriterion f LessOrEqual (Scalar v)).
  7: exists (mkCriterion f InSet (Sequence (v :: vs))).
  8: exists (mkCriterion f NotInSet (Sequence (v :: vs))).
  9: exists (mkCriterion f IsNull (Scalar (SBool true))).
  10: exists (mkCriterion f IsNull (Scalar (SBool false))).
  all: split;
    [ match goal with
      | |- build_criterion _ _ = Ok (mkCriterion _ ?o ?x) =>
          exact (Hbuild o x eq_refl)
      end
    | unfold criterion_sql, criterion_parameters;
      cbn [field operator operand]; rewrite ?placeholders_map; done ].
Qed.

Lemma build_entries_complete (m : list (string * entry))
    (pieces : list (string * list scalar)) :
  Forall2 (fun fe p => identifier_safe fe.1 = true /\ entry_sql fe.1 fe.2 p.1 p.2)
    m pieces ->
  exists cs : Criteria,
    build_entries m = Ok cs /\
    map criterion_sql cs = map fst pieces /\
    map criterion_parameters cs = map snd pieces.
Proof.
  induction 1 as [|[f e] [text params] m pieces [Hsafe Hsql] _ IH]; simpl.
  - by exists [].
  - destruct (build_criterion_complete f e text params Hsafe Hsql)
      as (c & -> & Hc1 & Hc2).
    destruct IH as (cs & -> & Hcs1 & Hcs2).
    exists (c :: cs). simpl. by rewrite Hc1, Hc2, Hcs1, Hcs2.
Qed.

(** C5: the translation of a mapping is made of one fragment per entry, in
    the SQL form the operator table gives it, the fragments being joined
    with [" AND "] and the parameters concatenated, both in the order of the
    entries.  Whatever is translated is of that form, and every mapping
    whose entries have an identifier-safe field and a form in the table is
    translated, to the join of these forms; and
    [{"name": "alice", "age": {"greater-or-equal": 21}}] gives
    ["name = ? AND age >= ?"] with the parameters [["alice", 21]]. *)
Theorem translate_mapping_in_insertion_order :
  (forall (m : list (string * entry)) (r : TranslationResult),
      translate_input (FMapping m) = Ok r ->
      exists pieces : list (string * list scalar),
        Forall2 (fun fe p => entry_sql fe.1 fe.2 p.1 p.2) m pieces /\
        fragment r = join " AND " (map fst pieces) /\
        parameters r = concat (map snd pieces)) /\
  (forall (m : list (string * entry)) (pieces : list (string * list scalar)),
      Forall2 (fun fe p => identifier_safe fe.1 = true /\
                           entry_sql fe.1 fe.2 p.1 p.2) m pieces ->
      translate_input (FMapping m) =
      Ok (mkTranslation (join " AND " (map fst pieces)) (concat (map snd pieces)))) /\
  translate_input
    (FMapping [ ("name", Bare (Scalar (SStr "alice")));
                ("age", Descriptor [("greater-or-equal", Scalar (SInt 21))]) ])
  = Ok (mkTranslation "name = ? AND age >= ?" [SStr "alice"; SInt 21]).
Proof.
  split; [|split; [|reflexivity]].
  - intros m r. unfold translate_input. simpl.
    destruct (build_entries m) as [cs|] eqn:Hcs; [|discriminate].
    rewrite translate_eq. destruct (forallb valid_criterion cs); [|discriminate].
    intros [= <-]. simpl.
    exists (map (fun c => (criterion_sql c, criterion_parameters c)) cs).
    rewrite !map_map. simpl. split; [|done].
    apply build_entries_ok in Hcs.
    induction Hcs as [|[f e] c m cs Hc _ IH]; simpl; constructor; [|done].
    by apply build_criterion_ok in Hc as (_ & _ & Hsql).
  - intros m pieces Hpieces.
    destruct (build_entries_complete m pieces Hpieces) as (cs & Hcs & Hsql & Hparams).
    unfold translate_input. simpl. rewrite Hcs, translate_eq.
    rewrite (buildCriteria_valid (FMapping m) cs Hcs).
    by rewrite Hsql, Hparams.
Qed.

Lemma translate_mapping_in_insertion_order_witness :
  (exists pieces : list (string * list scalar),
      Forall2 (fun fe p => entry_sql fe.1 fe.2 p.1 p.2)
        [ ("name", Bare (Scalar (SStr "alice")));
          ("age", Descriptor [("greater-or-equal", Scalar (SInt 21))]) ] pieces /\
      "name = ? AND age >= ?" = join " AND " (map fst pieces) /\
      [SStr "alice"; SInt 21] = concat (map snd pieces)) /\
  translate_input
    (FMapping [ ("price", Descriptor [("less-than", Scalar (SInt 10))]);
                ("tag", Descriptor [("not-in-set", Sequence [SStr "a"; SStr "b"])]);
                ("note", Descriptor [("is-null", Scalar (SBool true))]) ])
  = Ok (mkTranslation
          (join " AND "
             (map fst [ ("price" +:+ " < ?", [SInt 10]);
                        ("tag" +:+ " NOT IN ("
                           +:+ join ", " (map (fun _ => "?") [SStr "a"; SStr "b"])
                           +:+ ")", [SStr "a"; SStr "b"]);
                        ("note" +:+ " IS NULL", []) ]))
          (concat
             (map snd [ ("price" +:+ " < ?", [SInt 10]);
                        ("tag" +:+ " NOT IN ("
                           +:+ join ", " (map (fun _ => "?") [SStr "a"; SStr "b"])
                           +:+ ")", [SStr "a"; SStr "b"]);
                        ("note" +:+ " IS NULL", @nil scalar) ]))).
Proof.
  split.
  - apply (proj1 translate_mapping_in_insertion_order
             [ ("name", Bare (Scalar (SStr "alice")));
               ("age", Descriptor [("greater-or-equal", Scalar (SInt 21))]) ]
             (mkTranslation "name = ? AND age >= ?" [SStr "alice"; SInt 21])).
    reflexivity.
  - apply (proj1 (proj2 translate_mapping_in_insertion_order)).
    repeat constructor.
Defined.

(** ** The translator: rejected input *)

Lemma build_criterion_raise (f : string) (e : entry) (err : exn) :
  build_criterion f e = Raise err -> err = InvalidCriteria.
Proof.
  unfold build_criterion.
  destruct e as [v|[|[k v] [|]]]; try congruence.
  - destruct (valid_criterion _); congruence.
  - destruct (operator_of_key k); [|congruence].
    destruct (valid_criterion _); congruence.
Qed.

Lemma build_criterion_malformed (f : string) (e : entry) :
  malformed f e -> build_criterion f e = Raise InvalidCriteria.
Proof.
  intros Hbad.
  destruct (build_criterion f e) as [c|err] eqn:Hbuild.
  2: { by apply build_criterion_raise in Hbuild as ->. }
  exfalso.
  pose proof Hbuild as (Hf & Hvalid & _)%build_criterion_ok.
  unfold valid_criterion, identifier_safe in Hvalid.
  apply andb_prop in Hvalid as [[Hne Hsafe]%andb_prop Hshape].
  rewrite Hf in Hne, Hsafe.
  unfold build_criterion in Hbuild.
  destruct Hbad as [e ->|e a Ha Hbad|k v Hk|d Hd|vs|k o vs Hk Ho1 Ho2
                   |k o v Hk Ho|k o Hk Ho|k v Hk Hv].
  - discriminate.
  - rewrite forallb_forall in Hsafe. specialize (Hsafe a Ha). congruence.
  - rewrite Hk in Hbuild. discriminate.
  - destruct d as [|[k v] [|]]; simpl in Hd; try discriminate. lia.
  - destruct (valid_criterion _); [|discriminate].
    injection Hbuild as <-. discriminate.
  - rewrite Hk in Hbuild. destruct (valid_criterion _); [|discriminate].
    injection Hbuild as <-. simpl in Hshape. by destruct o.
  - rewrite Hk in Hbuild. destruct (valid_criterion _); [|discriminate].
    injection Hbuild as <-. simpl in Hshape. by destruct Ho as [-> | ->].
  - rewrite Hk in Hbuild. destruct (valid_criterion _); [|discriminate].
    injection Hbuild as <-. simpl in Hshape. by destruct Ho as [-> | ->].
  - rewrite Hk in Hbuild. destruct (valid_criterion _); [|discriminate].
    injection Hbuild as <-. simpl in Hshape.
    destruct v as [|b| | |]; try discriminate. by apply (Hv b).
Qed.

(** C6: [buildCriteria] fails with [InvalidCriteria], and so returns no
    Criteria at all, as soon as one entry of the mapping has an empty or
    unsafe field name, an unrecognized operator key, or an operand whose
    shape does not fit its operator, the empty sequence of a membership
    operator included. *)
Theorem buildCriteria_rejects_malformed
    (m : list (string * entry)) (f : string) (e : entry) :
  In (f, e) m ->
  malformed f e ->
  buildCriteria (FMapping m) = Raise InvalidCriteria /\
  translate_input (FMapping m) = Raise InvalidCriteria.
Proof.
  intros Hin Hbad.
  assert (Hraise : build_entries m = Raise InvalidCriteria).
  { induction m as [|[f' e'] m IH]; [destruct Hin|]. simpl.
    destruct (build_criterion f' e') as [c|err] eqn:Hc.
    - destruct Hin as [[= -> ->]|Hin].
      + rewrite (build_criterion_malformed f e Hbad) in Hc. discriminate.
      + by rewrite (IH Hin).
    - by apply build_criterion_raise in Hc as ->. }
  unfold translate_input. simpl. by rewrite Hraise.
Qed.

Lemma buildCriteria_rejects_malformed_witness :
  buildCriteria (FMapping [("id", Descriptor [("in-set", Sequence [])])])
    = Raise InvalidCriteria /\
  translate_input (FMapping [("id", Descriptor [("in-set", Sequence [])])])
    = Raise InvalidCriteria.
Proof.
  apply (buildCriteria_rejects_malformed
           [("id", Descriptor [("in-set", Sequence [])])]
           "id" (Descriptor [("in-set", Sequence [])])).
  - left. reflexivity.
  - apply (bad_empty_membership "id" "in-set" InSet); [reflexivity|].
    left. reflexivity.
Defined.

(** * Further properties of the code *)

(** ** [str.find] and [str.split] *)

Lemma starts_with_app (sub r : string) : starts_with sub (sub +:+ r) = true.
Proof.
  induction sub as [|a sub IH]; [reflexivity|].
  rewrite append_cons. simpl. by rewrite decide_True.
Qed.

Lemma starts_with_inv (sub s : string) :
  starts_with sub s = true -> exists r : string, s = sub +:+ r.
Proof.
  revert s. induction sub as [|a sub IH]; intros s Hs.
  - by exists s.
  - destruct s as [|b s]; [discriminate|]. simpl in Hs.
    destruct (decide (a = b)) as [->|]; [|discriminate].
    destruct (IH s Hs) as [r ->]. exists r. by rewrite append_cons.
Qed.

Lemma length_append (a b : string) :
  String.length (a +:+ b) = (String.length a + String.length b)%nat.
Proof.
  induction a as [|x a IH]; [reflexivity|].
  rewrite append_cons. simpl. by rewrite IH.
Qed.

Lemma char_free_empty (c : ascii) : char_free c "".
Proof. intros []. Qed.

Lemma char_free_cons (c x : ascii) (s : string) :
  char_free c (String x s) <-> x <> c /\ char_free c s.
Proof.
  unfold char_free. simpl. split.
  - intros Hfree. split; [intros ->|intros Hin]; apply Hfree; auto.
  - intros [Hx Hs] [->|Hin]; auto.
Qed.

Lemma char_free_app (c : ascii) (a b : string) :
  char_free c (a +:+ b) <-> char_free c a /\ char_free c b.
Proof.
  induction a as [|x a IH].
  - change ("" +:+ b) with b. split; [|tauto].
    intros Hb. split; [apply char_free_empty|done].
  - rewrite append_cons, !char_free_cons, IH. tauto.
Qed.

Lemma starts_with_char_free (c x : ascii) (sep' s : string) :
  x <> c -> starts_with (String c sep') (String x s) = false.
Proof. intros Hx. simpl. by rewrite decide_False. Qed.

(** A text without the first character of the separator is read into the
    current piece. *)
Lemma split_go_char_free (c : ascii) (sep' a : string) :
  char_free c a ->
  forall cur r : string,
    split_go (String c sep') 0 cur (a +:+ r) =
    split_go (String c sep') 0 (cur +:+ a) r.
Proof.
  induction a as [|x a IH]; intros Hfree cur r.
  - change ("" +:+ r) with r. by rewrite append_empty_r.
  - apply char_free_cons in Hfree as [Hx Hfree].
    rewrite append_cons.
    change (split_go (String c sep') 0 cur (String x (a +:+ r)))
      with (if starts_with (String c sep') (String x (a +:+ r))
            then cur :: split_go (String c sep')
                          (String.length (String c sep') - 1) "" (a +:+ r)
            else split_go (String c sep') 0 (cur +:+ String x "") (a +:+ r)).
    rewrite (starts_with_char_free c x sep' _ Hx), (IH Hfree).
    by rewrite append_assoc.
Qed.

Lemma split_go_skip (sep t : string) :
  forall (k : nat) (cur r : string),
    String.length t = k ->
    split_go sep k cur (t +:+ r) = split_go sep 0 cur r.
Proof.
  induction t as [|x t IH]; intros k cur r Hk.
  - simpl in Hk. by subst k.
  - simpl in Hk. subst k. rewrite append_cons. simpl. by apply IH.
Qed.

(** At a separator the current piece ends and a new one begins. *)
Lemma split_go_sep (c : ascii) (sep' cur r : string) :
  split_go (String c sep') 0 cur (String c sep' +:+ r) =
  cur :: split_go (String c sep') 0 "" r.
Proof.
  rewrite append_cons.
  change (split_go (String c sep') 0 cur (String c (sep' +:+ r)))
    with (if starts_with (String c sep') (String c (sep' +:+ r))
          then cur :: split_go (String c sep')
                        (String.length (String c sep') - 1) "" (sep' +:+ r)
          else split_go (String c sep') 0 (cur +:+ String c "") (sep' +:+ r)).
  rewrite <- append_cons, starts_with_app. f_equal.
  apply split_go_skip. simpl. lia.
Qed.

Lemma split_go_nonempty (sep s : string) :
  forall (k : nat) (cur : string), split_go sep k cur s <> [].
Proof.
  induction s as [|x s IH]; intros k cur; simpl; [done|].
  destruct k; [|apply IH].
  destruct (starts_with sep (String x s)); [done|apply IH].
Qed.

(** [sep.join(s.split(sep))] is [s]. *)
Lemma join_split_go (c : ascii) (sep' : string) (n : nat) :
  forall s cur : string,
    (String.length s <= n)%nat ->
    join (String c sep') (split_go (String c sep') 0 cur s) = cur +:+ s.
Proof.
  unfold join.
  induction n as [|n IH]; intros s cur Hn.
  - destruct s; [|simpl in Hn; lia]. simpl. by rewrite append_empty_r.
  - destruct s as [|x s]; [simpl; by rewrite append_empty_r|].
    destruct (starts_with (String c sep') (String x s)) eqn:Hstart.
    + destruct (starts_with_inv _ _ Hstart) as [r Hr]. rewrite Hr.
      rewrite split_go_sep.
      rewrite concat_cons by apply split_go_nonempty.
      rewrite IH; [done|].
      apply (f_equal String.length) in Hr. rewrite length_append in Hr.
      simpl in Hr, Hn. lia.
    + change (split_go (String c sep') 0 cur (String x s))
        with (if starts_with (String c sep') (String x s)
              then cur :: split_go (String c sep')
                            (String.length (String c sep') - 1) "" s
              else split_go (String c sep') 0 (cur +:+ String x "") s).
      rewrite Hstart, IH by (simpl in Hn; lia).
      by rewrite append_assoc.
Qed.

Lemma join_split (c : ascii) (sep' s : string) :
  join (String c sep') (split s (String c sep')) = s.
Proof. unfold split. by rewrite (join_split_go c sep' (String.length s)). Qed.

(** The pieces of a split at one character do not contain it. *)
Lemma split_go_pieces_free (c : ascii) (s : string) :
  forall cur : string,
    char_free c cur -> Forall (char_free c) (split_go (String c "") 0 cur s).
Proof.
  induction s as [|x s IH]; intros cur Hcur.
  - simpl. by constructor.
  - change (split_go (String c "") 0 cur (String x s))
      with (if starts_with (String c "") (String x s)
            then cur :: split_go (String c "") 0 "" s
            else split_go (String c "") 0 (cur +:+ String x "") s).
    destruct (decide (x = c)) as [->|Hx].
    + change (String c s) with (String c "" +:+ s). rewrite starts_with_app.
      constructor; [done|]. apply IH, char_free_empty.
    + rewrite (starts_with_char_free c x "" s Hx). apply IH.
      apply char_free_app. split; [done|].
      apply char_free_cons. split; [done|apply char_free_empty].
Qed.

(** Joining pieces free of the separator character and splitting again gives
    the pieces back. *)
Lemma split_join (c : ascii) (l : list string) :
  l <> [] -> Forall (char_free c) l ->
  split (join (String c "") l) (String c "") = l.
Proof.
  unfold split, join. intros Hne Hfree.
  induction Hfree as [|x l Hx Hl IH]; [done|]. clear Hne.
  destruct l as [|y l].
  - simpl. rewrite <- (append_empty_r x) at 1.
    by rewrite (split_go_char_free c "" x Hx).
  - rewrite concat_cons by done.
    rewrite (split_go_char_free c "" x Hx), split_go_sep.
    f_equal. by apply IH.
Qed.

Lemma find_from_char_free (c : ascii) (sep' a : string) :
  char_free c a ->
  forall (r : string) (i : Z),
    find_from (String c sep') (a +:+ r) i =
    find_from (String c sep') r (i + Z.of_nat (String.length a)).
Proof.
  induction a as [|x a IH]; intros Hfree r i.
  - change ("" +:+ r) with r. simpl. by rewrite Z.add_0_r.
  - apply char_free_cons in Hfree as [Hx Hfree].
    rewrite append_cons.
    change (find_from (String c sep') (String x (a +:+ r)) i)
      with (if starts_with (String c sep') (String x (a +:+ r)) then i
            else find_from (String c sep') (a +:+ r) (i + 1)).
    rewrite (starts_with_char_free c x sep' _ Hx), (IH Hfree).
    f_equal. simpl String.length. lia.
Qed.

Lemma find_from_here (sub s : string) (i : Z) :
  starts_with sub s = true -> find_from sub s i = i.
Proof. intros Hs. destruct s; simpl; by rewrite Hs. Qed.

(** ** [Storage.parse_uri] *)

Ltac solve_char_free :=
  let H := fresh in
  unfold char_free; intros H; simpl in H; intuition discriminate.

Lemma char_free_split_unique (c : ascii) (a d x y : string) :
  char_free c a -> char_free c d ->
  a +:+ String c x = d +:+ String c y -> a = d /\ x = y.
Proof.
  revert d. induction a as [|p a IH]; intros d Ha Hd Heq.
  - destruct d as [|q d].
    + change (String c x = String c y) in Heq. by injection Heq as ->.
    + rewrite append_cons in Heq. change (String c x = String q (d +:+ String c y)) in Heq.
      injection Heq as <- _. apply char_free_cons in Hd as [Hq _]. done.
  - apply char_free_cons in Ha as [Hp Ha]. rewrite append_cons in Heq.
    destruct d as [|q d].
    + change (String p (a +:+ String c x) = String c y) in Heq.
      injection Heq as -> _. done.
    + rewrite append_cons in Heq. injection Heq as <- Heq.
      apply char_free_cons in Hd as [_ Hd].
      destruct (IH d Ha Hd Heq) as [-> ->]. done.
Qed.

Lemma find_backend (backend rest : string) :
  char_free ":" backend ->
  find (backend +:+ "://" +:+ rest) "://" = Z.of_nat (String.length backend).
Proof.
  intros Hb. unfold find.
  rewrite (find_from_char_free ":" "//" backend Hb).
  by rewrite find_from_here by apply starts_with_app.
Qed.

(** The split of a URI at [://] begins with the backend. *)
Lemma split_backend (backend rest : string) :
  char_free ":" backend ->
  split (backend +:+ "://" +:+ rest) "://" =
  backend :: split_go "://" 0 "" rest.
Proof.
  intros Hb. unfold split.
  rewrite (split_go_char_free ":" "//" backend Hb).
  change ("" +:+ backend) with backend. apply split_go_sep.
Qed.

Lemma split_database_table (db table : string) :
  char_free ":" db -> char_free ":" table ->
  starts_with "//" table = false ->
  split_go "://" 0 "" (db +:+ ":" +:+ table) = [db +:+ ":" +:+ table].
Proof.
  intros Hdb Htable Hslash.
  rewrite (split_go_char_free ":" "//" db Hdb).
  change ("" +:+ db) with db.
  change (":" +:+ table) with (String ":" table).
  change (split_go "://" 0 db (String ":" table))
    with (if starts_with "://" (String ":" table)
          then db :: split_go "://" (String.length "://" - 1) "" table
          else split_go "://" 0 (db +:+ ":") table).
  change (starts_with "://" (String ":" table))
    with (if decide (":"%char = ":"%char) then starts_with "//" table else false).
  rewrite decide_True, Hslash by done.
  rewrite <- (append_empty_r table) at 1.
  rewrite (split_go_char_free ":" "//" table Htable). simpl.
  by rewrite append_assoc.
Qed.

Lemma split_nested_uri (db rest : string) :
  char_free ":" db ->
  split_go "://" 0 "" (db +:+ "://" +:+ rest) = db :: split_go "://" 0 "" rest.
Proof.
  intros Hdb. rewrite (split_go_char_free ":" "//" db Hdb).
  change ("" +:+ db) with db. apply split_go_sep.
Qed.

Lemma str_truthy_app (a b : string) :
  a <> "" -> str_truthy (a +:+ b) = true.
Proof. by destruct a. Qed.

Lemma parse_uri_backend (backend db table : string) :
  backend <> "" -> char_free ":" backend ->
  char_free ":" db -> char_free ":" table ->
  starts_with "//" table = false ->
  parse_uri (Some (backend +:+ "://" +:+ db +:+ ":" +:+ table)) =
  if bool_decide (backend ∈ SUPPORTED_BACKENDS) then Done (db, table)
  else Fail (SetupError (UnknownBackend backend)).
Proof.
  intros Hne Hb Hdb Htable Hslash. unfold parse_uri.
  rewrite (str_truthy_app _ _ Hne), (find_backend _ _ Hb),
    (split_backend _ _ Hb), (split_database_table _ _ Hdb Htable Hslash).
  assert (Hlen : (Z.of_nat (String.length backend) <=? 0) = false).
  { destruct backend; [done|]. apply Z.leb_gt. simpl String.length. lia. }
  rewrite Hlen. simpl.
  destruct (bool_decide (backend ∈ SUPPORTED_BACKENDS)); simpl; [|done].
  pose proof (split_join ":" [db; table]) as Hsplit.
  unfold join in Hsplit. simpl in Hsplit. rewrite Hsplit; [done|done|].
  by repeat constructor.
Qed.

(** X1: a URI [sqlite://<database>:<table>] is parsed into its database and
    its table, when neither contains a colon and the table does not begin
    with [//]. *)
Theorem parse_uri_sqlite (db table : string) :
  char_free ":" db -> char_free ":" table ->
  starts_with "//" table = false ->
  parse_uri (Some ("sqlite://" +:+ db +:+ ":" +:+ table)) = Done (db, table).
Proof.
  intros Hdb Htable Hslash.
  apply (parse_uri_backend "sqlite" db table); try done. solve_char_free.
Qed.

Lemma parse_uri_sqlite_witness :
  parse_uri (Some ("sqlite://" +:+ "data/db.sqlite" +:+ ":" +:+ "items"))
    = Done ("data/db.sqlite", "items").
Proof.
  apply (parse_uri_sqlite "data/db.sqlite" "items");
    [solve_char_free | solve_char_free | reflexivity].
Defined.

(** X2: whatever [parse_uri] returns comes from a URI of that form: the
    text is [sqlite://], the database, a colon and the table, database and
    table contain no colon and the table does not begin with [//]. *)
Theorem parse_uri_sound (uri : option string) (db table : string) :
  parse_uri uri = Done (db, table) ->
  uri = Some ("sqlite://" +:+ db +:+ ":" +:+ table) /\
  char_free ":" db /\ char_free ":" table /\ starts_with "//" table = false.
Proof.
  unfold parse_uri. destruct uri as [u|]; [|discriminate].
  destruct (negb (str_truthy u) || (find u "://" <=? 0)); [discriminate|].
  destruct (split u "://") as [|backend [|rest [|]]] eqn:Hu; try discriminate.
  destruct (bool_decide (backend ∈ SUPPORTED_BACKENDS)) eqn:Hb; [|discriminate].
  simpl. destruct (split rest ":") as [|d [|t [|]]] eqn:Hrest; try discriminate.
  intros [= -> ->].
  apply bool_decide_eq_true in Hb. apply list_elem_of_singleton in Hb as ->.
  pose proof (join_split ":" "//" u) as Hju. rewrite Hu in Hju.
  pose proof (join_split ":" "" rest) as Hjr. rewrite Hrest in Hjr.
  unfold join in Hju, Hjr. simpl in Hju, Hjr. subst rest. subst u.
  pose proof (split_go_pieces_free ":" (db +:+ ":" +:+ table) ""
                (char_free_empty ":")) as Hfree.
  unfold split in Hrest. rewrite Hrest in Hfree.
  apply Forall_cons in Hfree as [Hdb Hfree].
  apply Forall_cons in Hfree as [Htable _].
  do 3 (split; [done|]).
  destruct (starts_with "//" table) eqn:Hslash; [|done]. exfalso.
  destruct (starts_with_inv _ _ Hslash) as [t' ->].
  change ("sqlite" +:+ "://" +:+ db +:+ ":" +:+ "//" +:+ t')
    with ("sqlite" +:+ "://" +:+ db +:+ "://" +:+ t') in Hu.
  rewrite split_backend in Hu by solve_char_free.
  rewrite (split_nested_uri db t' Hdb) in Hu.
  injection Hu as _ Hu. by apply split_go_nonempty in Hu.
Qed.

Lemma parse_uri_sound_witness :
  Some "sqlite://data/db.sqlite:items"
    = Some ("sqlite://" +:+ "data/db.sqlite" +:+ ":" +:+ "items") /\
  char_free ":" "data/db.sqlite" /\ char_free ":" "items" /\
  starts_with "//" "items" = false.
Proof.
  apply (parse_uri_sound (Some "sqlite://data/db.sqlite:items")).
  reflexivity.
Defined.

(** X3: [parse_uri] raises the [RuntimeError] "Incorrect URI definition"
    for [None], for a text without any colon, the empty text included, and
    for a text that begins with [://]. *)
Theorem parse_uri_incorrect (uri : option string) :
  (uri = None \/
   exists u : string,
     uri = Some u /\ (char_free ":" u \/ starts_with "://" u = true)) ->
  parse_uri uri = Fail (SetupError (IncorrectURI uri)).
Proof.
  intros [->|(u & -> & Hu)]; [done|]. unfold parse_uri.
  assert (Hfind : (find u "://" <=? 0) = true).
  { apply Z.leb_le. unfold find. destruct Hu as [Hfree|Hstart].
    - rewrite <- (append_empty_r u).
      rewrite (find_from_char_free ":" "//" u Hfree). simpl. lia.
    - by rewrite find_from_here. }
  by rewrite Hfind, orb_true_r.
Qed.

Lemma parse_uri_incorrect_witness :
  parse_uri (Some "data/db.sqlite")
    = Fail (SetupError (IncorrectURI (Some "data/db.sqlite"))).
Proof.
  apply (parse_uri_incorrect (Some "data/db.sqlite")).
  right. exists "data/db.sqlite". split; [reflexivity|].
  left. solve_char_free.
Defined.

(** X4: a URI of the right form with a backend other than [sqlite] raises
    the [RuntimeError] "Unknown backend". *)
Theorem parse_uri_unknown_backend (backend db table : string) :
  backend <> "" -> backend <> "sqlite" -> char_free ":" backend ->
  char_free ":" db -> char_free ":" table ->
  starts_with "//" table = false ->
  parse_uri (Some (backend +:+ "://" +:+ db +:+ ":" +:+ table)) =
  Fail (SetupError (UnknownBackend backend)).
Proof.
  intros Hne Hsqlite Hb Hdb Htable Hslash.
  rewrite (parse_uri_backend backend db table) by done.
  rewrite bool_decide_eq_false_2; [done|].
  intros Hin. by apply list_elem_of_singleton in Hin.
Qed.

Lemma parse_uri_unknown_backend_witness :
  parse_uri (Some ("mysql" +:+ "://" +:+ "db" +:+ ":" +:+ "items"))
    = Fail (SetupError (UnknownBackend "mysql")).
Proof.
  apply (parse_uri_unknown_backend "mysql" "db" "items");
    [discriminate | discriminate | solve_char_free | solve_char_free
    | solve_char_free | reflexivity].
Defined.

Lemma parse_uri_sqlite_cases (rest : string) :
  parse_uri (Some ("sqlite://" +:+ rest)) = Fail ValueError \/
  exists db table : string,
    parse_uri (Some ("sqlite://" +:+ rest)) = Done (db, table).
Proof.
  unfold parse_uri.
  change ("sqlite://" +:+ rest) with ("sqlite" +:+ "://" +:+ rest).
  rewrite str_truthy_app by done.
  rewrite find_backend, split_backend by solve_char_free. simpl.
  destruct (split_go "://" 0 "" rest) as [|r [|]]; auto.
  destruct (split r ":") as [|d [|t [|]]]; eauto.
Qed.

(** X5: after [sqlite://], a text without a colon, or with two colons that
    separate three colon-free parts, makes [parse_uri] raise [ValueError]
    from the unpacking of the split, not a [RuntimeError]: the database name
    cannot contain a colon. *)
Theorem parse_uri_value_error (rest : string) :
  (char_free ":" rest \/
   exists a b c : string,
     rest = a +:+ ":" +:+ b +:+ ":" +:+ c /\
     char_free ":" a /\ char_free ":" b /\ char_free ":" c) ->
  parse_uri (Some ("sqlite://" +:+ rest)) = Fail ValueError.
Proof.
  intros Hrest.
  destruct (parse_uri_sqlite_cases rest) as [Hv|(db & table & Hdone)]; [done|].
  exfalso. apply parse_uri_sound in Hdone as (Huri & Hdb & Htable & _).
  injection Huri as Huri. apply String.app_inj in Huri.
  destruct Hrest as [Hfree|(a & b & c & -> & Ha & Hb & Hc)].
  - rewrite Huri in Hfree. apply char_free_app in Hfree as [_ Hfree].
    change (":" +:+ table) with (String ":" table) in Hfree.
    apply char_free_cons in Hfree as [Hfree _]. done.
  - change (a +:+ String ":" (b +:+ ":" +:+ c) = db +:+ String ":" table) in Huri.
    apply char_free_split_unique in Huri as [_ Heq]; [|done..].
    rewrite <- Heq in Htable. apply char_free_app in Htable as [_ Htable].
    change (":" +:+ c) with (String ":" c) in Htable.
    apply char_free_cons in Htable as [Htable _]. done.
Qed.

Lemma parse_uri_value_error_witness :
  parse_uri (Some ("sqlite://" +:+ ("C" +:+ ":" +:+ "/data/db.sqlite" +:+ ":" +:+ "items")))
    = Fail ValueError.
Proof.
  apply (parse_uri_value_error ("C" +:+ ":" +:+ "/data/db.sqlite" +:+ ":" +:+ "items")).
  right. exists "C", "/data/db.sqlite", "items".
  split; [reflexivity|]. repeat split; solve_char_free.
Defined.

(** ** [Storage.__init__], [fieldnames] and [_create_table] *)

Lemma str_truthy_true (s : string) : str_truthy s = true <-> s <> "".
Proof. by destruct s. Qed.

Lemma fields_member_in (cls : ItemClass) (m : member) :
  map snd (filter (fun x : string * member => x.1 = "fields") cls) = [m] ->
  In ("fields", m) cls.
Proof.
  intros Hfilter.
  destruct (filter (fun x : string * member => x.1 = "fields") cls)
    as [|[name m'] [|]] eqn:Hf; try discriminate.
  injection Hfilter as ->.
  assert (Hin : (name, m) ∈ filter (fun x : string * member => x.1 = "fields") cls)
    by (rewrite Hf; by left).
  apply list_elem_of_filter in Hin as [Hname Hin]. simpl in Hname. subst name.
  by apply list_elem_of_In.
Qed.

Lemma fields_member_none (cls : ItemClass) :
  ~ In "fields" (map fst cls) ->
  filter (fun x : string * member => x.1 = "fields") cls = [].
Proof.
  induction cls as [|[name m] cls IH]; intros Hnot; [done|].
  rewrite filter_cons_False.
  - apply IH. intros Hin. apply Hnot. by right.
  - simpl. intros ->. apply Hnot. by left.
Qed.

Lemma fields_member_unique (cls : ItemClass) (m : member) :
  NoDup (map fst cls) -> In ("fields", m) cls ->
  filter (fun x : string * member => x.1 = "fields") cls = [("fields", m)].
Proof.
  induction cls as [|[name m'] cls IH]; intros Hnodup Hin; [destruct Hin|].
  simpl in Hnodup. apply NoDup_cons in Hnodup as [Hname Hnodup].
  destruct Hin as [[= -> ->]|Hin].
  - rewrite filter_cons_True by done. f_equal.
    apply fields_member_none. intros Hin. apply Hname. by apply list_elem_of_In.
  - rewrite filter_cons_False; [by apply IH|].
    simpl. intros ->. apply Hname. apply list_elem_of_In.
    apply (in_map fst) in Hin. exact Hin.
Qed.

Section Opening.
Context {conn : Type} `{Sqlite3 conn} `{Sqlite3Connect conn}.

(** X6: a storage that [__init__] returns was opened from a URI with a
    non-empty database and table on a connection that [sqlite3.connect]
    gave; its commit counter is 0, its [autocommit] is the argument, the
    item class has a member [fields] whose keys, not empty, are cached as
    field names, and the only call made on the driver is one
    [CREATE TABLE IF NOT EXISTS] for its table, without any commit. *)
Theorem init_postcondition
    (item : option ItemClass) (uri : option string) (autocommit : pyarg)
    (obj : StorageObject conn) :
  __init__ item uri autocommit = Done obj ->
  exists (db table : string) (names : list string) (cls : ItemClass) (c : conn),
    parse_uri uri = Done (db, table) /\ db <> "" /\ table <> "" /\
    sqlite_connect db = inr c /\
    obj_db obj = db /\ obj_item_class obj = item /\
    item = Some cls /\ In ("fields", MMapping names) cls /\ names <> [] /\
    obj_fieldnames obj = Some names /\
    _table (obj_storage obj) = hd "" (split table " ") /\
    _autocommit (obj_storage obj) = autocommit /\
    _commit_counter (obj_storage obj) = 0 /\
    calls (obj_storage obj) =
      [Execute ("CREATE TABLE IF NOT EXISTS " +:+ _table (obj_storage obj) +:+ " ("
                  +:+ join "," (filter (fun f => f <> "_id") names) +:+ ");") []].
Proof.
  unfold __init__.
  destruct (parse_uri uri) as [[db table]|e]; [|discriminate].
  destruct (str_truthy db) eqn:Hdb; [|discriminate].
  destruct (str_truthy table) eqn:Htable; [|discriminate]. simpl.
  destruct (sqlite_connect db) as [[err|err]|c] eqn:Hconnect; try discriminate.
  unfold fieldnames. simpl.
  destruct item as [cls|]; [|discriminate].
  destruct (map snd (filter (fun m : string * member => m.1 = "fields") cls))
    as [|[names|] [|]] eqn:Hfields; try discriminate.
  simpl. unfold _create_table.
  destruct names as [|name names]; [discriminate|].
  unfold cursor_execute. simpl.
  destruct (sqlite_execute c _ []) as [c' description rows|[msg|msg]];
    [|discriminate..].
  intros [= <-]. simpl.
  exists db, table, (name :: names), cls, c.
  apply str_truthy_true in Hdb, Htable.
  apply fields_member_in in Hfields. repeat split; done.
Qed.

Lemma init_parts
    (item : option ItemClass) (uri : option string) (autocommit : pyarg)
    (obj : StorageObject conn) :
  __init__ item uri autocommit = Done obj ->
  exists db table : string,
    parse_uri uri = Done (db, table) /\ obj_db obj = db /\
    _table (obj_storage obj) = hd "" (split table " ").
Proof.
  unfold __init__.
  destruct (parse_uri uri) as [[db table]|e]; [|discriminate].
  destruct (str_truthy db); [|discriminate].
  destruct (str_truthy table); [|discriminate]. simpl.
  destruct (sqlite_connect db) as [[err|err]|c]; try discriminate.
  unfold fieldnames. simpl.
  destruct item as [cls|]; [|discriminate].
  destruct (map snd (filter (fun m : string * member => m.1 = "fields") cls))
    as [|[names|] [|]]; try discriminate.
  simpl. unfold _create_table.
  destruct names as [|name names]; [discriminate|].
  unfold cursor_execute. simpl.
  destruct (sqlite_execute c _ []) as [c' description rows|[msg|msg]];
    [|discriminate..].
  intros [= <-]. simpl. eauto.
Qed.

(** X7: the table of an opened storage is the table part of the URI up to
    its first space: it contains no space, and the URI is [sqlite://], the
    database, a colon, that table and either nothing or a space followed by
    anything. *)
Theorem init_table_name
    (item : option ItemClass) (uri : option string) (autocommit : pyarg)
    (obj : StorageObject conn) :
  __init__ item uri autocommit = Done obj ->
  exists rest : string,
    uri = Some ("sqlite://" +:+ obj_db obj +:+ ":"
                  +:+ _table (obj_storage obj) +:+ rest) /\
    (rest = "" \/ starts_with " " rest = true) /\
    char_free " " (_table (obj_storage obj)).
Proof.
  intros (db & table & Hparse & -> & ->)%init_parts.
  apply parse_uri_sound in Hparse as (-> & _).
  pose proof (join_split " " "" table) as Hjoin.
  pose proof (split_go_pieces_free " " table "" (char_free_empty " ")) as Hfree.
  fold (split table " ") in Hfree.
  destruct (split table " ") as [|t0 l] eqn:Hsplit;
    [by apply split_go_nonempty in Hsplit|].
  apply Forall_cons in Hfree as [Ht0 _]. simpl.
  destruct l as [|t1 l].
  - exists "". unfold join in Hjoin. simpl in Hjoin. subst t0.
    rewrite append_empty_r. auto.
  - exists (" " +:+ String.concat " " (t1 :: l)).
    unfold join in Hjoin. rewrite concat_cons in Hjoin by done.
    rewrite Hjoin. split; [done|]. split; [|done].
    right. exact (starts_with_app " " (String.concat " " (t1 :: l))).
Qed.

(** X8: for a URI of the right form, an empty database name makes
    [__init__] raise the [RuntimeError] "Empty database name" and otherwise
    an empty table name the [RuntimeError] "Empty table name", whatever the
    item class and the driver. *)
Theorem init_empty_names
    (item : option ItemClass) (db table : string) (autocommit : pyarg) :
  char_free ":" db -> char_free ":" table ->
  starts_with "//" table = false ->
  db = "" \/ table = "" ->
  __init__ item (Some ("sqlite://" +:+ db +:+ ":" +:+ table)) autocommit =
  Fail (SetupError (if decide (db = "") then EmptyDatabaseName db
                    else EmptyTableName table)).
Proof.
  intros Hdb Htable Hslash Hempty. unfold __init__.
  change ("sqlite://" +:+ db +:+ ":" +:+ table)
    with ("sqlite" +:+ "://" +:+ db +:+ ":" +:+ table).
  rewrite (parse_uri_backend "sqlite" db table) by (done || solve_char_free).
  simpl.
  destruct (decide (db = "")) as [->|Hne]; [done|].
  destruct Hempty as [->| ->]; [done|].
  apply str_truthy_true in Hne. by rewrite Hne.
Qed.

(** X9: once the URI is parsed into non-empty names and the connection is
    open, the item class decides: [None] raises "Item class is not
    defined", a class without a member [fields] raises "Unknown item type",
    a member [fields] without [keys()] raises [AttributeError], and one
    without any key raises "Item fieldnames are not defined"; no storage
    is returned and no table is created in any of these cases. *)
Theorem init_item_class_errors
    (item : option ItemClass) (uri : option string) (autocommit : pyarg)
    (db table : string) (c : conn) :
  parse_uri uri = Done (db, table) -> db <> "" -> table <> "" ->
  sqlite_connect db = inr c ->
  (item = None ->
   __init__ item uri autocommit = Fail (SetupError ItemClassNotDefined)) /\
  (forall cls : ItemClass,
      item = Some cls -> ~ In "fields" (map fst cls) ->
      __init__ item uri autocommit = Fail (SetupError UnknownItemType_NoFields)) /\
  (forall cls : ItemClass,
      item = Some cls -> NoDup (map fst cls) -> In ("fields", MOther) cls ->
      __init__ item uri autocommit = Fail AttributeError) /\
  (forall cls : ItemClass,
      item = Some cls -> NoDup (map fst cls) -> In ("fields", MMapping []) cls ->
      __init__ item uri autocommit = Fail (SetupError FieldnamesNotDefined)).
Proof.
  intros Hparse Hdb%str_truthy_true Htable%str_truthy_true Hconnect.
  unfold __init__. rewrite Hparse, Hdb, Htable, Hconnect. simpl.
  unfold fieldnames. simpl. repeat split.
  - by intros ->.
  - intros cls -> Hnone. by rewrite (fields_member_none cls Hnone).
  - intros cls -> Hnodup Hin. by rewrite (fields_member_unique cls _ Hnodup Hin).
  - intros cls -> Hnodup Hin. by rewrite (fields_member_unique cls _ Hnodup Hin).
Qed.

End Opening.

(** X10: [_create_table] issues [CREATE TABLE IF NOT EXISTS <table>
    (<columns>);] where the columns, read back by splitting at the commas,
    are the field names other than [_id], in order: [_id] is never a column
    of the table. *)
Theorem create_table_columns
    {conn : Type} `{Sqlite3 conn}
    (table_name : string) (names : list string) (self : Storage conn) :
  Forall (char_free ",") names ->
  filter (fun f => f <> "_id") names <> [] ->
  exists columns : string,
    calls (_create_table table_name names self).2 =
      calls self ++
      [Execute ("CREATE TABLE IF NOT EXISTS " +:+ table_name +:+ " (" +:+ columns
                  +:+ ");") []] /\
    split columns "," = filter (fun f => f <> "_id") names /\
    ~ In "_id" (split columns ",").
Proof.
  intros Hfree Hcols.
  exists (join "," (filter (fun f => f <> "_id") names)).
  assert (Hsplit : split (join "," (filter (fun f => f <> "_id") names)) ","
                   = filter (fun f => f <> "_id") names).
  { apply (split_join ","); [done|].
    apply Forall_forall. intros f Hf%list_elem_of_filter.
    rewrite Forall_forall in Hfree. apply Hfree. tauto. }
  split; [|split; [done|]].
  - unfold _create_table. destruct names as [|name names]; [done|].
    unfold cursor_execute.
    by destruct (sqlite_execute _ _ _) as [c d r|[msg|msg]].
  - rewrite Hsplit. intros Hin%list_elem_of_In%list_elem_of_filter. tauto.
Qed.

Lemma init_postcondition_witness :
  let obj :=
    mkStorageObject
      (mkStorage "items" (AInt 2) 0 []
         ([], []) [Execute "CREATE TABLE IF NOT EXISTS items (name,age);" []])
      (Some [("fields", MMapping ["name"; "_id"; "age"])])
      (Some ["name"; "_id"; "age"]) "db" in
  @__init__ _ DemoSqlite3 DemoConnect
    (Some [("fields", MMapping ["name"; "_id"; "age"])])
    (Some "sqlite://db:items extra") (AInt 2) = Done obj /\
  _commit_counter (obj_storage obj) = 0.
Proof.
  split; [reflexivity|].
  destruct (@init_postcondition _ DemoSqlite3 DemoConnect
              (Some [("fields", MMapping ["name"; "_id"; "age"])])
              (Some "sqlite://db:items extra") (AInt 2) _ eq_refl)
    as (db & table & names & cls & c
        & _ & _ & _ & _ & _ & _ & _ & _ & _ & _ & _ & _ & Hcounter & _).
  exact Hcounter.
Defined.

Lemma init_table_name_witness :
  exists rest : string,
    Some "sqlite://db:items extra" =
      Some ("sqlite://" +:+ "db" +:+ ":" +:+ "items" +:+ rest) /\
    (rest = "" \/ starts_with " " rest = true) /\
    char_free " " "items".
Proof.
  apply (@init_table_name _ DemoSqlite3 DemoConnect
           (Some [("fields", MMapping ["name"; "_id"; "age"])])
           (Some "sqlite://db:items extra") (AInt 2)
           (mkStorageObject
              (mkStorage "items" (AInt 2) 0 []
                 ([], []) [Execute "CREATE TABLE IF NOT EXISTS items (name,age);" []])
              (Some [("fields", MMapping ["name"; "_id"; "age"])])
              (Some ["name"; "_id"; "age"]) "db")).
  reflexivity.
Defined.

Lemma init_empty_names_witness :
  @__init__ _ DemoSqlite3 DemoConnect None
    (Some ("sqlite://" +:+ "" +:+ ":" +:+ "items")) (ABool true)
  = Fail (SetupError (EmptyDatabaseName "")).
Proof.
  apply (@init_empty_names _ DemoSqlite3 DemoConnect None "" "items" (ABool true));
    [solve_char_free | solve_char_free | reflexivity | left; reflexivity].
Defined.

Lemma init_item_class_errors_witness :
  @__init__ _ DemoSqlite3 DemoConnect None (Some "sqlite://db:items") (ABool true)
  = Fail (SetupError ItemClassNotDefined).
Proof.
  refine (proj1 (@init_item_class_errors _ DemoSqlite3 DemoConnect None
                   (Some "sqlite://db:items") (ABool true) "db" "items" [] _ _ _ _)
            eq_refl).
  - reflexivity.
  - discriminate.
  - discriminate.
  - reflexivity.
Defined.

Lemma create_table_columns_witness :
  exists columns : string,
    calls (@_create_table _ DemoSqlite3 "items" ["name"; "_id"; "age"]
             (demo_storage (ABool false))).2 =
      [] ++
      [Execute ("CREATE TABLE IF NOT EXISTS " +:+ "items" +:+ " (" +:+ columns
                  +:+ ");") []] /\
    split columns "," = ["name"; "age"] /\
    ~ In "_id" (split columns ",").
Proof.
  apply (@create_table_columns _ DemoSqlite3 "items" ["name"; "_id"; "age"]
           (demo_storage (ABool false))).
  - repeat constructor; solve_char_free.
  - discriminate.
Defined.

(** ** [_put_one]: the statement and its parameters *)

Lemma put_one_eq {conn : Type} `{Sqlite3 conn} (item : Item) (self : Storage conn) :
  _put_one item self =
  match cursor_execute (put_statement (_table self) item).1
          (put_statement (_table self) item).2 self with
  | (Raise (Sqlite3Error (OperationalError err)), self') =>
      (Raise (RuntimeError
                (ItemPutError err (put_statement (_table self) item).1
                   (put_statement (_table self) item).2)), self')
  | (Raise e, self') => (Raise e, self')
  | (Ok _, self') => _do_autocommit self'
  end.
Proof. unfold _put_one, put_statement. by destruct (item !! "_id"). Qed.

Lemma count_placeholders_free (s : string) :
  char_free "?" s -> count_placeholders s = 0%nat.
Proof.
  induction s as [|x s IH]; intros Hfree; [done|].
  apply char_free_cons in Hfree as [Hx Hfree]. simpl.
  rewrite decide_False by done. by apply IH.
Qed.

Lemma count_placeholders_concat (sep : string) (pieces : list string) :
  count_placeholders sep = 0%nat ->
  count_placeholders (String.concat sep pieces) =
  list_sum (map count_placeholders pieces).
Proof.
  intros Hsep. induction pieces as [|p pieces IH]; [reflexivity|].
  destruct pieces as [|q pieces]; [simpl; lia|].
  rewrite concat_cons by done.
  rewrite !count_placeholders_app, IH, Hsep. simpl. lia.
Qed.

Lemma list_sum_const (A : Type) (f : A -> nat) (n : nat) (l : list A) :
  (forall x, In x l -> f x = n) -> list_sum (map f l) = (n * length l)%nat.
Proof.
  induction l as [|x l IH]; intros Hf; simpl; [lia|].
  rewrite Hf by (by left). rewrite IH by (intros; apply Hf; by right). lia.
Qed.

Lemma other_fields_keys (item : Item) (k : string) (v : scalar) :
  In (k, v) (other_fields item) <-> k <> "_id" /\ item !! k = Some v.
Proof.
  unfold other_fields.
  rewrite <- list_elem_of_In, list_elem_of_filter, elem_of_map_to_list. done.
Qed.

Lemma filter_all {A : Type} (P : A -> Prop) `{forall x, Decision (P x)} (l : list A) :
  (forall x, In x l -> P x) -> filter P l = l.
Proof.
  induction l as [|x l IH]; intros HP; [done|].
  rewrite filter_cons_True by (apply HP; by left).
  f_equal. apply IH. intros y Hy. apply HP. by right.
Qed.

(** The item has one more field than [other_fields] when it has an [_id],
    and as many otherwise. *)
Lemma other_fields_length (item : Item) :
  size item =
  (length (other_fields item)
   + match item !! "_id" with Some _ => 1 | None => 0 end)%nat.
Proof.
  unfold other_fields. destruct (item !! "_id") as [id|] eqn:Hid.
  - rewrite <- length_map_to_list, <- (map_to_list_delete item "_id" id Hid).
    rewrite filter_cons_False by (simpl; tauto).
    rewrite filter_all; [simpl; lia|].
    intros [k v] Hin%list_elem_of_In%elem_of_map_to_list. simpl.
    intros ->. by rewrite lookup_delete_eq in Hin.
  - rewrite <- length_map_to_list, filter_all; [lia|].
    intros [k v] Hin%list_elem_of_In%elem_of_map_to_list. simpl.
    intros ->. congruence.
Qed.

Section PutOne.
Context {conn : Type} `{Sqlite3 conn}.

Lemma put_one_calls (item : Item) (self : Storage conn) :
  exists rest : list call,
    calls (_put_one item self).2 =
    calls self ++
    Execute (put_statement (_table self) item).1
      (put_statement (_table self) item).2 :: rest.
Proof.
  rewrite put_one_eq. unfold cursor_execute.
  destruct (sqlite_execute _ _ _) as [c description rows|[msg|msg]].
  - match goal with
    | |- context [_do_autocommit ?s] =>
        destruct (do_autocommit_spec s)
          as [(s' & Hs' & _ & Hcalls & _)|(err & s' & Hs' & _ & _ & Hcalls & _)]
    end; rewrite Hs'; simpl; rewrite Hcalls; simpl; rewrite <- app_assoc; eauto.
  - by exists [].
  - by exists [].
Qed.

(** X11: [_put_one] executes one statement whose bound values are as many
    as the [?] placeholders of its text and as the fields of the item: an
    item without [_id] is an [INSERT], an item with [_id] an [UPDATE] whose
    last value, bound to [rowid], is the [_id]; table and field names being
    free of [?]. *)
Theorem put_one_binds_every_field (item : Item) (self : Storage conn) :
  char_free "?" (_table self) ->
  (forall k : string, is_Some (item !! k) -> char_free "?" k) ->
  exists (SQL : string) (values : list scalar) (rest : list call),
    calls (_put_one item self).2 = calls self ++ Execute SQL values :: rest /\
    count_placeholders SQL = length values /\
    length values = size item /\
    match item !! "_id" with
    | Some id => starts_with "UPDATE " SQL = true /\ last values = Some id
    | None => starts_with "INSERT INTO " SQL = true
    end.
Proof.
  intros Htable Hkeys.
  destruct (put_one_calls item self) as [rest Hcalls].
  exists (put_statement (_table self) item).1,
         (put_statement (_table self) item).2, rest.
  split; [done|].
  pose proof (other_fields_length item) as Hsize.
  assert (Hfree : forall kv, In kv (other_fields item) ->
                             count_placeholders kv.1 = 0%nat).
  { intros [k v] [_ Hk]%other_fields_keys. apply count_placeholders_free.
    apply Hkeys. eauto. }
  apply count_placeholders_free in Htable.
  unfold put_statement, join. destruct (item !! "_id") as [id|]; simpl.
  - rewrite !count_placeholders_app, Htable.
    rewrite count_placeholders_concat by done.
    rewrite map_map, (list_sum_const _ _ 1).
    2:{ intros kv Hkv. rewrite count_placeholders_app, (Hfree kv Hkv). done. }
    rewrite length_app, length_map. simpl.
    repeat split; try lia; apply last_snoc.
  - rewrite !count_placeholders_app, Htable.
    rewrite !count_placeholders_concat by done.
    rewrite !map_map, (list_sum_const _ _ 0), (list_sum_const _ _ 1);
      [|done|intros kv Hkv; exact (Hfree kv Hkv)].
    rewrite length_map. simpl.
    repeat split; lia.
Qed.

(** X12: a [_put_one] that raises has either failed on its one statement
    or in the automatic commit after it.  In the first case connection,
    cursor and commit counter are as they were and no commit is attempted;
    an [OperationalError] of the driver is raised as the [RuntimeError]
    "Item put() error" with the statement and its values, any other driver
    error as it is.  In the second case the statement was executed, a commit
    was due and failed: its error is raised as it is, outside the [try], the
    counter has been incremented and is not reset. *)
Theorem put_one_failure (item : Item) (self self' : Storage conn) (e : exn) :
  _put_one item self = (Raise e, self') ->
  exists (SQL : string) (values : list scalar),
    (exists err : sqlite3_error,
        sqlite_execute (_conn self) SQL values = ExecError err /\
        calls self' = calls self ++ [Execute SQL values] /\
        _commit_counter self' = _commit_counter self /\
        _conn self' = _conn self /\ _cursor self' = _cursor self /\
        e = match err with
            | OperationalError msg => RuntimeError (ItemPutError msg SQL values)
            | DatabaseError _ => Sqlite3Error err
            end) \/
    (exists (c : conn) (description : list string) (rows : list (list scalar))
            (err : sqlite3_error),
        sqlite_execute (_conn self) SQL values = ExecOk c description rows /\
        commit_due (_autocommit self) (_commit_counter self) 1 = true /\
        sqlite_commit c = inl err /\
        calls self' = calls self ++ [Execute SQL values; Commit] /\
        _commit_counter self' = _commit_counter self + 1 /\
        _conn self' = c /\
        e = Sqlite3Error err).
Proof.
  rewrite put_one_eq. unfold cursor_execute.
  destruct (sqlite_execute (_conn self) _ _) as [c description rows|err] eqn:Hexec.
  - match goal with
    | |- context [_do_autocommit ?s] =>
        destruct (do_autocommit_spec s)
          as [(s' & -> & _)|(err & s' & -> & Hdue & Hcommit & Hcalls & Hn & Hc & _)]
    end; [discriminate|].
    intros [= <- <-]. do 2 eexists. right. exists c, description, rows, err.
    split; [exact Hexec|]. simpl in Hdue, Hcommit, Hcalls, Hn, Hc.
    rewrite Hcalls, <- app_assoc. done.
  - intros Hraise. do 2 eexists. left. exists err. split; [exact Hexec|].
    destruct err as [msg|msg]; injection Hraise as <- <-; done.
Qed.

End PutOne.

Lemma put_one_binds_every_field_witness :
  let item : Item := <["_id" := SInt 1]> {["name" := SStr "al"]} in
  let self := demo_storage (ABool true) in
  exists (SQL : string) (values : list scalar) (rest : list call),
    calls (@_put_one _ DemoSqlite3 item self).2
      = calls self ++ Execute SQL values :: rest /\
    count_placeholders SQL = length values /\
    length values = size item /\
    match item !! "_id" with
    | Some id => starts_with "UPDATE " SQL = true /\ last values = Some id
    | None => starts_with "INSERT INTO " SQL = true
    end.
Proof.
  apply (@put_one_binds_every_field _ DemoSqlite3
           (<["_id" := SInt 1]> {["name" := SStr "al"]}) (demo_storage (ABool true))).
  - solve_char_free.
  - intros k [v Hk].
    destruct (decide (k = "_id")) as [->|Hid]; [solve_char_free|].
    rewrite lookup_insert_ne in Hk by done.
    destruct (decide (k = "name")) as [->|Hname]; [solve_char_free|].
    rewrite lookup_singleton_ne in Hk by done. discriminate.
Defined.

Lemma put_one_failure_witness :
  let self := @new_storage unit "items" tt (ABool true) in
  let item : Item := {["name" := SStr "al"]} in
  (@_put_one _ LockedSqlite3 item self).1 =
    Raise (RuntimeError
             (ItemPutError "database is locked"
                "INSERT INTO items (name) VALUES (?);" [SStr "al"])) /\
  exists (SQL : string) (values : list scalar),
    (exists err : sqlite3_error,
        @sqlite_execute _ LockedSqlite3 tt SQL values = ExecError err /\
        calls (@_put_one _ LockedSqlite3 item self).2 = [] ++ [Execute SQL values] /\
        _commit_counter (@_put_one _ LockedSqlite3 item self).2 = 0 /\
        _conn (@_put_one _ LockedSqlite3 item self).2 = tt /\
        _cursor (@_put_one _ LockedSqlite3 item self).2 = ([], []) /\
        RuntimeError
          (ItemPutError "database is locked"
             "INSERT INTO items (name) VALUES (?);" [SStr "al"])
        = match err with
          | OperationalError msg => RuntimeError (ItemPutError msg SQL values)
          | DatabaseError _ => Sqlite3Error err
          end) \/
    (exists (c : unit) (description : list string) (rows : list (list scalar))
            (err : sqlite3_error),
        @sqlite_execute _ LockedSqlite3 tt SQL values = ExecOk c description rows /\
        commit_due (ABool true) 0 1 = true /\
        @sqlite_commit _ LockedSqlite3 c = inl err /\
        calls (@_put_one _ LockedSqlite3 item self).2
          = [] ++ [Execute SQL values; Commit] /\
        _commit_counter (@_put_one _ LockedSqlite3 item self).2 = 0 + 1 /\
        _conn (@_put_one _ LockedSqlite3 item self).2 = c /\
        RuntimeError
          (ItemPutError "database is locked"
             "INSERT INTO items (name) VALUES (?);" [SStr "al"])
        = Sqlite3Error err).
Proof.
  split; [vm_compute; reflexivity|].
  apply (@put_one_failure _ LockedSqlite3 {["name" := SStr "al"]}
           (@new_storage unit "items" tt (ABool true))).
  vm_compute. reflexivity.
Defined.

(** ** [put] and [_put_many] *)

Section PutMany.
Context {conn : Type} `{Sqlite3 conn}.

Lemma put_many_app (xs ys : list pyobj) (self : Storage conn) :
  _put_many (xs ++ ys) self = (_put_many xs ;; _put_many ys) self.
Proof.
  revert self. induction xs as [|[item|] xs IH]; intros self; simpl.
  - done.
  - unfold bind.
    destruct (_put_one item self) as [[[]|e] self1]; [|done].
    rewrite IH. done.
  - done.
Qed.

(** X13: [put] of a list is [put] of its items one after the other, in
    order and on the state the previous one left: the list of two lists put
    after each other, and the list of one item like the item itself. *)
Theorem put_list_in_sequence (xs ys : list pyobj) (item : Item)
    (self : Storage conn) :
  put (PSeq (xs ++ ys)) self = (put (PSeq xs) ;; put (PSeq ys)) self /\
  put (PSeq [ObjItem item]) self = put (PItem item) self.
Proof.
  split; [apply put_many_app|].
  simpl. unfold bind, ret. by destruct (_put_one item self) as [[[]|e] self1].
Qed.

(** X14: when a list holds something that is not an item, [put] stores the
    items in front of it, with the commits that are due, then raises the
    [RuntimeError] "Items mismatch": what precedes stays stored, what
    follows is not looked at. *)
Theorem put_list_stops_at_non_item (pre : list Item) (post : list pyobj)
    (self : Storage conn) :
  put (PSeq (map ObjItem pre ++ ObjOther :: post)) self =
  match put (PSeq (map ObjItem pre)) self with
  | (Ok _, self') => (Raise (RuntimeError ItemsMismatch), self')
  | (Raise e, self') => (Raise e, self')
  end.
Proof.
  simpl. rewrite put_many_app. unfold bind.
  by destruct (_put_many (map ObjItem pre) self) as [[[]|e] self1].
Qed.

(** X21: [commit()] called by hand leaves the commit counter alone: the
    [put]s that follow are committed on the schedule the counter had before,
    so that manual and automatic commits do not interfere. *)
Theorem manual_commit_keeps_schedule (items : list Item)
    (self self' : Storage conn) :
  put (PSeq (map ObjItem items)) (commit self).2 = (Ok tt, self') ->
  exists stmts : list (string * list scalar),
    length stmts = length items /\
    calls self' =
      calls self ++
      Commit :: batched_trace
                  (commit_due (_autocommit self) (_commit_counter self)) 1 stmts /\
    _commit_counter self' =
      Nat.iter (length items) (next_counter (_autocommit self)) (_commit_counter self).
Proof.
  intros Hrun. simpl in Hrun.
  destruct (put_many_trace items _ self' Hrun) as (stmts & Hlen & _ & Hcalls & Hn).
  exists stmts.
  assert (Hframe : _autocommit (commit self).2 = _autocommit self /\
                   _commit_counter (commit self).2 = _commit_counter self /\
                   calls (commit self).2 = calls self ++ [Commit]).
  { unfold commit. by destruct (sqlite_commit (_conn self)). }
  destruct Hframe as (Ha & Hc & Hlog).
  rewrite Ha, Hc, Hlog in Hcalls. rewrite Ha, Hc in Hn.
  rewrite Hcalls, Hn, <- app_assoc. done.
Qed.

End PutMany.

Lemma manual_commit_keeps_schedule_witness :
  let self := (demo_put (PItem {["name" := SStr "carol"]}) (demo_storage (AInt 2))).2 in
  let items : list Item := [{["name" := SStr "dave"]}] in
  let self' :=
    (demo_put (PSeq (map ObjItem items)) (@commit _ DemoSqlite3 self).2).2 in
  calls self' =
    [ Execute "INSERT INTO items (name) VALUES (?);" [SStr "carol"];
      Commit;
      Execute "INSERT INTO items (name) VALUES (?);" [SStr "dave"];
      Commit ] /\
  exists stmts : list (string * list scalar),
    length stmts = length items /\
    calls self' =
      calls self ++
      Commit :: batched_trace
                  (commit_due (_autocommit self) (_commit_counter self)) 1 stmts /\
    _commit_counter self' =
      Nat.iter (length items) (next_counter (_autocommit self)) (_commit_counter self).
Proof.
  split; [vm_compute; reflexivity|].
  apply (@manual_commit_keeps_schedule _ DemoSqlite3 [{["name" := SStr "dave"]}]
           (demo_put (PItem {["name" := SStr "carol"]}) (demo_storage (AInt 2))).2
           (demo_put (PSeq (map ObjItem [{["name" := SStr "dave"]}]))
              (@commit _ DemoSqlite3
                 (demo_put (PItem {["name" := SStr "carol"]})
                    (demo_storage (AInt 2))).2).2).2).
  vm_compute. reflexivity.
Defined.

(** ** [get] and [delete]: what they leave alone, and their errors *)

Section GetDelete.
Context {conn : Type} `{Sqlite3 conn} {builder : Type} `{WhereBuilderClass builder}.

Lemma cursor_execute_frame (SQL : string) (params : list scalar)
    (self : Storage conn) :
  _table (cursor_execute SQL params self).2 = _table self /\
  _autocommit (cursor_execute SQL params self).2 = _autocommit self /\
  _commit_counter (cursor_execute SQL params self).2 = _commit_counter self /\
  calls (cursor_execute SQL params self).2 = calls self ++ [Execute SQL params].
Proof. unfold cursor_execute. by destruct (sqlite_execute _ _ _). Qed.

(** X15: [get] and [delete] never commit and never touch the commit
    counter, whatever [autocommit] is: table, [autocommit] and counter are
    as before and no [commit()] is among the calls they make, so that a
    deletion is committed only by a later commit. *)
Theorem get_delete_never_commit (criteria : filter_input) (_all : bool)
    (self : Storage conn) :
  (_table (get criteria self).2 = _table self /\
   _autocommit (get criteria self).2 = _autocommit self /\
   _commit_counter (get criteria self).2 = _commit_counter self /\
   ~ In Commit (drop (length (calls self)) (calls (get criteria self).2))) /\
  (_table (delete criteria _all self).2 = _table self /\
   _autocommit (delete criteria _all self).2 = _autocommit self /\
   _commit_counter (delete criteria _all self).2 = _commit_counter self /\
   ~ In Commit (drop (length (calls self)) (calls (delete criteria _all self).2))).
Proof.
  split.
  - rewrite get_eq.
    destruct (parse WhereBuilder_new criteria) as [WHERE|e]; simpl.
    + destruct (sqlite_execute _ _ _); simpl; rewrite drop_app_length;
        (repeat split; try done); simpl; intros [Heq|[]]; discriminate.
    + rewrite drop_all. repeat split; try done. intros [].
  - rewrite delete_eq.
    destruct (delete_criteria criteria) as [criteria'|e]; simpl;
      [|rewrite drop_all; repeat split; try done; intros []].
    destruct (parse WhereBuilder_new criteria') as [WHERE|e]; simpl;
      [|rewrite drop_all; repeat split; try done; intros []].
    destruct (delete_statement (_table self) WHERE _all) as [SQL|]; simpl;
      [|rewrite drop_all; repeat split; try done; intros []].
    destruct (cursor_execute_frame SQL [] self) as (-> & -> & -> & ->).
    rewrite drop_app_length. repeat split; try done.
    simpl. intros [Heq|[]]. discriminate.
Qed.

(** X16: when the translation of the criteria is not empty, [delete] keeps
    the [WHERE] clause whether [_all] is set or not: [_all=True] only adds a
    second semicolon to the statement and does not widen the deletion. *)
Theorem delete_with_criteria_ignores_all (criteria criteria' : filter_input)
    (WHERE : string) (_all : bool) (self : Storage conn) :
  delete_criteria criteria = Ok criteria' ->
  parse WhereBuilder_new criteria' = Ok WHERE ->
  WHERE <> "" ->
  calls (delete criteria _all self).2 =
    calls self ++
    [Execute ("DELETE FROM " +:+ _table self +:+ " WHERE " +:+ WHERE +:+ " ;"
                +:+ (if _all then ";" else "")) []].
Proof.
  intros Hcriteria Hparse Hne%str_truthy_true.
  rewrite delete_eq, Hcriteria, Hparse. unfold delete_statement. rewrite Hne.
  by destruct (cursor_execute_frame
                 ("DELETE FROM " +:+ _table self +:+ " WHERE " +:+ WHERE +:+ " ;"
                    +:+ (if _all then ";" else "")) [] self) as (_ & _ & _ & ->).
Qed.

(** X17: [delete] of a record that has no [_id] raises [KeyError] for
    [_id], also with [_all=True]: nothing is translated, nothing is executed
    and the storage is unchanged. *)
Theorem delete_record_without_id (r : Item) (_all : bool) (self : Storage conn) :
  r !! "_id" = None ->
  delete (FRecord r) _all self = (Raise (KeyError "_id"), self).
Proof. intros Hid. rewrite delete_eq. simpl. by rewrite Hid. Qed.

(** X18: an exception of the translator leaves [get] and [delete] with that
    exception before any call on the driver, the storage unchanged; an error
    of the driver on their statement is raised as it is, not as a
    [RuntimeError], with the statement as the only trace. *)
Theorem get_delete_errors (criteria : filter_input) (_all : bool)
    (self : Storage conn) :
  (forall e : exn,
      parse WhereBuilder_new criteria = Raise e ->
      get criteria self = (Raise e, self) /\
      (delete_criteria criteria = Ok criteria ->
       delete criteria _all self = (Raise e, self))) /\
  (forall (WHERE : string) (err : sqlite3_error),
      parse WhereBuilder_new criteria = Ok WHERE ->
      sqlite_execute (_conn self) (select_statement (_table self) WHERE) []
        = ExecError err ->
      (get criteria self).1 = Raise (Sqlite3Error err) /\
      _conn (get criteria self).2 = _conn self /\
      _cursor (get criteria self).2 = _cursor self) /\
  (forall (WHERE SQL : string) (err : sqlite3_error),
      delete_criteria criteria = Ok criteria ->
      parse WhereBuilder_new criteria = Ok WHERE ->
      delete_statement (_table self) WHERE _all = Some SQL ->
      sqlite_execute (_conn self) SQL [] = ExecError err ->
      (delete criteria _all self).1 = Raise (Sqlite3Error err) /\
      _conn (delete criteria _all self).2 = _conn self /\
      _cursor (delete criteria _all self).2 = _cursor self).
Proof.
  split; [|split].
  - intros e Hparse. split.
    + rewrite get_eq. by rewrite Hparse.
    + intros Hcriteria. rewrite delete_eq, Hcriteria. by rewrite Hparse.
  - intros WHERE err Hparse Hexec. rewrite get_eq, Hparse. simpl.
    by rewrite Hexec.
  - intros WHERE SQL err Hcriteria Hparse Hsql Hexec.
    rewrite delete_eq, Hcriteria, Hparse, Hsql. unfold cursor_execute.
    by rewrite Hexec.
Qed.

End GetDelete.

Lemma delete_with_criteria_ignores_all_witness :
  calls (demo_delete (FMapping [("name", Bare (Scalar (SStr "bob")))]) true
           (demo_storage (ABool true))).2 =
    [] ++ [Execute ("DELETE FROM " +:+ "items" +:+ " WHERE " +:+ "name = ?" +:+ " ;"
                      +:+ ";") []].
Proof.
  apply (@delete_with_criteria_ignores_all _ DemoSqlite3 _ SpecWhereBuilder
           (FMapping [("name", Bare (Scalar (SStr "bob")))])
           (FMapping [("name", Bare (Scalar (SStr "bob")))])
           "name = ?" true (demo_storage (ABool true)));
    [reflexivity | reflexivity | discriminate].
Defined.

Lemma delete_record_without_id_witness :
  demo_delete (FRecord {["name" := SStr "bob"]}) true (demo_storage (ABool true))
  = (Raise (KeyError "_id"), demo_storage (ABool true)).
Proof.
  apply (@delete_record_without_id _ DemoSqlite3 _ SpecWhereBuilder
           {["name" := SStr "bob"]} true (demo_storage (ABool true))).
  reflexivity.
Defined.

Lemma get_delete_errors_witness :
  (@get _ LockedSqlite3 _ SpecWhereBuilder FNone
     (@new_storage unit "items" tt (ABool true))).1
  = Raise (Sqlite3Error (OperationalError "database is locked")).
Proof.
  refine (proj1 (proj1 (proj2 (@get_delete_errors _ LockedSqlite3 _ SpecWhereBuilder
                                 FNone true (@new_storage unit "items" tt (ABool true))))
                   "" (OperationalError "database is locked") _ _));
    reflexivity.
Defined.

(** ** [_dict_factory]: rows shorter and longer than the description *)

Lemma dict_factory_extra (row extra : list scalar) (description : list string) :
  (length description <= length row)%nat ->
  _dict_factory description (row ++ extra) = _dict_factory description row.
Proof.
  induction description as [|col description IH] using rev_ind; intros Hlen.
  - reflexivity.
  - rewrite length_app in Hlen. simpl in Hlen.
    rewrite !dict_factory_snoc, IH by lia.
    unfold dict_factory_step. simpl. by rewrite lookup_app_l by lia.
Qed.

Lemma dict_factory_short (row : list scalar) (description : list string) :
  (length row < length description)%nat ->
  _dict_factory description row = Raise IndexError.
Proof.
  induction description as [|col description IH] using rev_ind; intros Hlen.
  - simpl in Hlen. lia.
  - rewrite length_app in Hlen. simpl in Hlen. rewrite dict_factory_snoc.
    destruct (decide (length row < length description)%nat) as [Hlt|Hge].
    + by rewrite IH.
    + destruct (dict_factory_total description row) as [d ->]; [lia|].
      unfold dict_factory_step. simpl. by rewrite lookup_ge_None_2 by lia.
Qed.

(** X19: [_dict_factory] raises [IndexError] exactly on a row that has
    fewer values than the description has columns; on any other row it
    returns a dictionary, and the values beyond the last column are
    ignored. *)
Theorem dict_factory_row_length (description : list string) (row : list scalar) :
  ((length row < length description)%nat ->
   _dict_factory description row = Raise IndexError) /\
  ((length description <= length row)%nat ->
   exists d : Item,
     _dict_factory description row = Ok d /\
     forall extra : list scalar, _dict_factory description (row ++ extra) = Ok d).
Proof.
  split.
  - apply dict_factory_short.
  - intros Hlen. destruct (dict_factory_total description row Hlen) as [d Hd].
    exists d. split; [done|]. intros extra. by rewrite dict_factory_extra.
Qed.

Lemma dict_factory_row_length_witness :
  _dict_factory ["rowid"; "name"; "age"] [SInt 1; SStr "alice"] = Raise IndexError.
Proof.
  apply (proj1 (dict_factory_row_length ["rowid"; "name"; "age"] [SInt 1; SStr "alice"])).
  simpl. lia.
Defined.

(** ** From [get] back to [put] *)

(** X20: an item made by the row factory from a row with a [rowid] column
    carries the row's id as [_id], so that [_put_one] writes it back with
    [UPDATE <table> SET ... WHERE rowid=?;], the id being the last value
    bound; no later column of the row being mapped to [_id]. *)
Theorem put_of_fetched_item_updates
    {conn : Type} `{Sqlite3 conn}
    (description : list string) (row : list scalar) (item : Item)
    (idx : nat) (id : scalar) (self : Storage conn) :
  _dict_factory description row = Ok item ->
  description !! idx = Some "rowid" ->
  row !! idx = Some id ->
  (forall (j : nat) (col : string),
      (idx < j)%nat -> description !! j = Some col -> dict_key col <> "_id") ->
  exists (assignments : string) (values : list scalar) (rest : list call),
    calls (_put_one item self).2 =
      calls self ++
      Execute ("UPDATE " +:+ _table self +:+ " SET " +:+ assignments
                 +:+ " WHERE rowid=?;") values :: rest /\
    last values = Some id.
Proof.
  intros Hitem Hcol Hrow Hlast.
  pose proof (dict_factory_lookup description row item Hitem idx "rowid" Hcol Hlast)
    as Hid.
  change (dict_key "rowid") with "_id" in Hid. rewrite Hrow in Hid.
  destruct (put_one_calls item self) as [rest Hcalls].
  unfold put_statement in Hcalls. rewrite Hid in Hcalls. simpl in Hcalls.
  do 3 eexists. split; [exact Hcalls|]. apply last_snoc.
Qed.

Lemma put_of_fetched_item_updates_witness :
  let item : Item :=
    <["age" := SInt 30]> (<["name" := SStr "alice"]> (<["_id" := SInt 1]> ∅)) in
  let self := demo_storage (ABool false) in
  exists (assignments : string) (values : list scalar) (rest : list call),
    calls (@_put_one _ DemoSqlite3 item self).2 =
      calls self ++
      Execute ("UPDATE " +:+ _table self +:+ " SET " +:+ assignments
                 +:+ " WHERE rowid=?;") values :: rest /\
    last values = Some (SInt 1).
Proof.
  apply (@put_of_fetched_item_updates _ DemoSqlite3
           ["rowid"; "name"; "age"] [SInt 1; SStr "alice"; SInt 30]
           (<["age" := SInt 30]> (<["name" := SStr "alice"]> (<["_id" := SInt 1]> ∅)))
           0%nat (SInt 1) (demo_storage (ABool false))).
  - vm_compute. reflexivity.
  - reflexivity.
  - reflexivity.
  - intros j col Hj Hcol.
    destruct j as [|[|[|j]]]; [lia| | |discriminate];
      injection Hcol as <-; discriminate.
Defined.
